(** * gandi-dyn: a dynamic-DNS updater for Gandi zones

    Shallow embedding of [main.go].  The program talks to two remote
    services (an HTTP endpoint giving the public IP, and Gandi's XML-RPC
    registrar); both are modelled as a [Platform] whose replies are
    arbitrary, and every remote call is recorded in a trace so that the
    order of calls can be stated and proved. *)

From Stdlib Require Import ZArith List String Ascii Bool Lia.
From Stdlib Require Import DecimalString DecimalPos.
Import ListNotations.

Local Open Scope string_scope.
Local Open Scope Z_scope.

Set Implicit Arguments.

(** ** Go values: errors and results *)

(** [strconv.ErrSyntax] and [strconv.ErrRange]. *)
Inductive NumErr := ErrSyntax | ErrRange.

(** Go [error] values met in the program: those built with [fmt.Errorf]
    (the message is kept rendered), [*strconv.NumError], and errors handed
    back by the libraries that talk to the outside ([net/http],
    [io/ioutil], [encoding/json], [xmlrpc]). *)
Inductive error :=
| Errorf (msg : string)
| NumError (Func Num : string) (Err : NumErr)
| External (msg : string).

(** A Go pair [(value, err)] whose value is only read when [err == nil]. *)
Inductive result (A : Type) :=
| Ok (a : A)
| Fail (err : error).
Arguments Ok {A} a.
Arguments Fail {A} err.

(** What a remote service hands back: a decoded value or a failure. *)
Inductive reply (A : Type) :=
| Reply (a : A)
| Fault (msg : string).
Arguments Reply {A} a.
Arguments Fault {A} msg.

Definition of_reply {A} (r : reply A) : result A :=
  match r with
  | Reply a => Ok a
  | Fault msg => Fail (External msg)
  end.

(** ** strconv.ParseInt(s, 10, 64) *)

Module strconv.

Definition maxUint64 : Z := 2 ^ 64 - 1.

Definition is_digit (c : ascii) : bool :=
  let n := Z.of_nat (nat_of_ascii c) in (48 <=? n) && (n <=? 57).

Definition digit_val (c : ascii) : Z := Z.of_nat (nat_of_ascii c) - 48.

(** Outcome of the digit loop of [ParseUint]. *)
Inductive uparse := UVal (n : Z) | USyntax | URange.

(** The loop of [ParseUint] for base 10: a byte that is no digit is a
    syntax error; the accumulator overflowing 64 bits is a range error,
    reported as soon as it is seen. *)
Fixpoint parse_digits (s : string) (n : Z) : uparse :=
  match s with
  | EmptyString => UVal n
  | String c rest =>
      if negb (is_digit c) then USyntax
      else if maxUint64 / 10 + 1 <=? n then URange
      else
        let n10 := n * 10 in
        let n1 := n10 + digit_val c in
        if maxUint64 <? n1 then URange
        else parse_digits rest n1
  end.

Definition ParseUint (s : string) : uparse :=
  match s with
  | EmptyString => USyntax
  | _ => parse_digits s 0
  end.

Definition ParseInt (s0 : string) : result Z :=
  match s0 with
  | EmptyString => Fail (NumError "ParseInt" s0 ErrSyntax)
  | String c rest =>
      let neg := Ascii.eqb c "-" in
      let s := if Ascii.eqb c "+" then rest else if neg then rest else s0 in
      let cutoff := 2 ^ 63 in
      match ParseUint s with
      | USyntax => Fail (NumError "ParseInt" s0 ErrSyntax)
      | URange => Fail (NumError "ParseInt" s0 ErrRange)
      | UVal un =>
          if negb neg && (cutoff <=? un) then Fail (NumError "ParseInt" s0 ErrRange)
          else if neg && (cutoff <? un) then Fail (NumError "ParseInt" s0 ErrRange)
          else Ok (if neg then - un else un)
      end
  end.

End strconv.

(** ** regexp: the fragment needed for [reIP] *)

Module regexp.

Inductive Regexp :=
| Void
| Eps
| Class (p : ascii -> bool)
| Cat (r1 r2 : Regexp)
| Alt (r1 r2 : Regexp)
| Star (r : Regexp).

(** [r+] *)
Definition Plus (r : Regexp) : Regexp := Cat r (Star r).

Fixpoint nullable (r : Regexp) : bool :=
  match r with
  | Void => false
  | Eps => true
  | Class _ => false
  | Cat r1 r2 => nullable r1 && nullable r2
  | Alt r1 r2 => nullable r1 || nullable r2
  | Star _ => true
  end.

Fixpoint deriv (c : ascii) (r : Regexp) : Regexp :=
  match r with
  | Void => Void
  | Eps => Void
  | Class p => if p c then Eps else Void
  | Cat r1 r2 =>
      if nullable r1 then Alt (Cat (deriv c r1) r2) (deriv c r2)
      else Cat (deriv c r1) r2
  | Alt r1 r2 => Alt (deriv c r1) (deriv c r2)
  | Star r1 => Cat (deriv c r1) (Star r1)
  end.

(** Some prefix of [s] is in the language of [r]. *)
Fixpoint match_prefix (r : Regexp) (s : string) : bool :=
  nullable r ||
  match s with
  | EmptyString => false
  | String c rest => match_prefix (deriv c r) rest
  end.

(** [Regexp.MatchString]: [s] contains a match of [r], at any offset. *)
Fixpoint MatchString (r : Regexp) (s : string) : bool :=
  match_prefix r s ||
  match s with
  | EmptyString => false
  | String _ rest => MatchString r rest
  end.

(** The whole of [s] is in the language of [r]. *)
Fixpoint match_whole (r : Regexp) (s : string) : bool :=
  match s with
  | EmptyString => nullable r
  | String c rest => match_whole (deriv c r) rest
  end.

End regexp.

(** [reIP = regexp.MustCompile(`\d+\.\d+\.\d+\.\d+`)] *)
Definition reIP : regexp.Regexp :=
  let d := regexp.Plus (regexp.Class strconv.is_digit) in
  let dot := regexp.Class (Ascii.eqb ".") in
  regexp.Cat d (regexp.Cat dot (regexp.Cat d (regexp.Cat dot
    (regexp.Cat d (regexp.Cat dot d))))).

(** The spec's notion, written from its words: a dotted quad is four
    non-empty runs of decimal digits separated by three dots, and nothing
    else. *)
Fixpoint split_dots (s : string) (cur : string) : list string :=
  match s with
  | EmptyString => [cur]
  | String c rest =>
      if Ascii.eqb c "." then cur :: split_dots rest ""
      else split_dots rest (cur ++ String c "")
  end.

Fixpoint all_digits (s : string) : bool :=
  match s with
  | EmptyString => true
  | String c rest => strconv.is_digit c && all_digits rest
  end.

Definition digit_run (s : string) : bool :=
  negb (s =? "")%string && all_digits s.

Definition spec_dotted_quad (s : string) : bool :=
  match split_dots s "" with
  | [a; b; c; d] => digit_run a && digit_run b && digit_run c && digit_run d
  | _ => false
  end.

(** [%d] of an [int]. *)
Definition fmt_d (z : Z) : string := NilZero.string_of_int (Z.to_int z).

(** ** Data model *)

(** [type NewRecord struct]: what is sent to [domain.zone.record.add].
    There is no identifier field. *)
Record NewRecord := {
  NewType : string;
  NewName : string;
  NewValue : string;
  NewTTL : Z
}.

(** [type Record struct].  [Id] is a string. *)
Record Record := {
  Id : string;
  Type_ : string;
  Name : string;
  Value : string;
  TTL : Z
}.

(** [type GandiAPI struct]; the [client] field is the connection to the
    platform below. *)
Record GandiAPI := { key : string }.

(** [*http.Response] as far as [getMyIP] reads it: the status code and what
    [ioutil.ReadAll(rsp.Body)] gives. *)
Record HttpResponse := {
  StatusCode : Z;
  Body : reply string
}.

(** One remote call with the reply it got. *)
Inductive Event :=
| EvHttpGet (url : string) (r : reply HttpResponse)
| EvDomainInfo (k domain : string) (r : reply Z)
| EvRecordList (k : string) (zoneId version : Z) (r : reply (list Record))
| EvVersionNew (k : string) (zoneId : Z) (r : reply Z)
| EvRecordDelete (k : string) (zoneId version id : Z) (r : reply Z)
| EvRecordAdd (k : string) (zoneId version : Z) (rec : NewRecord) (r : reply Record)
| EvVersionSet (k : string) (zoneId version : Z) (r : reply bool)
| EvVersionDelete (k : string) (zoneId version : Z) (r : reply bool).

(** Operands of the [fmt] print functions. *)
Inductive PArg :=
| PStr (s : string)
| PInt (z : Z)
| PRec (r : Record)
| PErr (e : error).

(** One call of a print function on a stream. *)
Inductive Write :=
| Println (args : list PArg)
| Fprintf (format : string) (args : list PArg).

Definition LF : string := String "010"%char "".

(** ** flag.Parse, for a program that defines no flag *)

Module flag.

Inductive parsed :=
| Args (rest : list string)
| Help
| Failf (msg : string).

(** The flag name stops at the first [=] after its first byte. *)
Fixpoint before_eq (s : string) : string :=
  match s with
  | EmptyString => ""
  | String c rest => if Ascii.eqb c "=" then "" else String c (before_eq rest)
  end.

(** [parseOne], then [Parse]: no flag being defined, the first argument
    that looks like a flag ends the parse with a call of [Usage]. *)
Definition Parse (arguments : list string) : parsed :=
  match arguments with
  | [] => Args []
  | s :: rest =>
      match s with
      | String "-" (String c1 s2) =>
          if Ascii.eqb c1 "-" && (s2 =? "")%string then Args rest
          else
            let name := if Ascii.eqb c1 "-" then s2 else String c1 s2 in
            match name with
            | EmptyString => Failf ("bad flag syntax: " ++ s)
            | String n0 tl =>
                if Ascii.eqb n0 "-" || Ascii.eqb n0 "=" then
                  Failf ("bad flag syntax: " ++ s)
                else
                  let name := String n0 (before_eq tl) in
                  if (name =? "help")%string || (name =? "h")%string then Help
                  else Failf ("flag provided but not defined: -" ++ name)
            end
      | _ => Args arguments
      end
  end.

End flag.

(** ** The platform and the program state *)

Section Program.

Variable W : Type.

(** The outside world: the HTTP endpoint, the JSON decoder, and the seven
    XML-RPC methods of the registrar, each taking the arguments the
    program sends, in order. *)
Record Platform := {
  http_Get : string -> W -> reply HttpResponse * W;
  json_Unmarshal : string -> reply string;
  xmlrpc_NewClient : string -> option string;
  domain_info : string -> string -> W -> reply Z * W;
  domain_zone_record_list : string -> Z -> Z -> W -> reply (list Record) * W;
  domain_zone_version_new : string -> Z -> W -> reply Z * W;
  domain_zone_record_delete : string -> Z -> Z -> Z -> W -> reply Z * W;
  domain_zone_record_add : string -> Z -> Z -> NewRecord -> W -> reply Record * W;
  domain_zone_version_set : string -> Z -> Z -> W -> reply bool * W;
  domain_zone_version_delete : string -> Z -> Z -> W -> reply bool * W
}.

Variable P : Platform.

Record State := {
  world : W;
  trace : list Event;
  stdout : list Write;
  stderr : list Write
}.

Definition M (A : Type) : Type := State -> A * State.

Definition ret {A} (a : A) : M A := fun st => (a, st).

Definition bind {A B} (c : M A) (k : A -> M B) : M B :=
  fun st => let (a, st1) := c st in k a st1.

Notation "x <- c ;; k" := (bind c (fun x => k))
  (at level 61, c at next level, right associativity).
Notation "c ;;; k" := (bind c (fun _ => k))
  (at level 61, right associativity).

(** A remote call: the world answers and the call is logged. *)
Definition call {A} (f : W -> reply A * W) (ev : reply A -> Event) : M (result A) :=
  fun st =>
    let (r, w) := f (world st) in
    (of_reply r,
     {| world := w; trace := trace st ++ [ev r];
        stdout := stdout st; stderr := stderr st |}).

Definition print (w : Write) : M unit :=
  fun st =>
    (tt, {| world := world st; trace := trace st;
            stdout := stdout st ++ [w]; stderr := stderr st |}).

Definition eprint (w : Write) : M unit :=
  fun st =>
    (tt, {| world := world st; trace := trace st;
            stdout := stdout st; stderr := stderr st ++ [w] |}).

(** ** The registrar client *)

Definition NewGandiAPI (apiKey : string) : result GandiAPI :=
  match xmlrpc_NewClient P "https://rpc.gandi.net/xmlrpc/" with
  | Some msg => Fail (External msg)
  | None => Ok {| key := apiKey |}
  end.

Definition GetZoneId (api : GandiAPI) (domain : string) : M (result Z) :=
  call (domain_info P (key api) domain) (EvDomainInfo (key api) domain).

Definition GetZoneRecords (api : GandiAPI) (zoneId version : Z)
  : M (result (list Record)) :=
  call (domain_zone_record_list P (key api) zoneId version)
       (EvRecordList (key api) zoneId version).

Definition CopyZoneVersion (api : GandiAPI) (zoneId : Z) : M (result Z) :=
  call (domain_zone_version_new P (key api) zoneId)
       (EvVersionNew (key api) zoneId).

Definition DeleteRecord (api : GandiAPI) (zoneId version : Z) (id : string)
  : M (result Z) :=
  match strconv.ParseInt id with
  | Fail err => ret (Fail err)
  | Ok intId =>
      call (domain_zone_record_delete P (key api) zoneId version intId)
           (EvRecordDelete (key api) zoneId version intId)
  end.

Definition AddRecord (api : GandiAPI) (zoneId version : Z) (record : Record)
  : M (result Record) :=
  let r := {| NewType := Type_ record; NewName := Name record;
              NewValue := Value record; NewTTL := TTL record |} in
  call (domain_zone_record_add P (key api) zoneId version r)
       (EvRecordAdd (key api) zoneId version r).

Definition SetZoneVersion (api : GandiAPI) (zoneId version : Z)
  : M (option error) :=
  r <- call (domain_zone_version_set P (key api) zoneId version)
            (EvVersionSet (key api) zoneId version) ;;
  match r with
  | Fail err => ret (Some err)
  | Ok ok =>
      if negb ok then
        ret (Some (Errorf "zone activation failed for unknown reason"))
      else ret None
  end.

Definition DeleteZoneVersion (api : GandiAPI) (zoneId version : Z)
  : M (option error) :=
  r <- call (domain_zone_version_delete P (key api) zoneId version)
            (EvVersionDelete (key api) zoneId version) ;;
  match r with
  | Fail err => ret (Some err)
  | Ok ok =>
      if negb ok then
        ret (Some (Errorf "zone version deletion failed for unknown reason"))
      else ret None
  end.

(** ** The IP resolver *)

Definition getMyIP : M (result string) :=
  let url := "https://api.ipify.org?format=json" in
  r <- call (http_Get P url) (EvHttpGet url) ;;
  match r with
  | Fail err => ret (Fail err)
  | Ok rsp =>
      if negb (StatusCode rsp =? 200) then
        ret (Fail (Errorf ("http call failed with " ++ fmt_d (StatusCode rsp))))
      else
        match of_reply (Body rsp) with
        | Fail err => ret (Fail err)
        | Ok data =>
            match of_reply (json_Unmarshal P data) with
            | Fail err => ret (Fail err)
            | Ok ipIP =>
                if negb (regexp.MatchString reIP ipIP) then
                  ret (Fail (Errorf ("does not look like an IPv4: {" ++ ipIP ++ "}")))
                else ret (Ok ipIP)
            end
        end
  end.

(** ** The zone update *)

Definition with_Value (r : Record) (v : string) : Record :=
  {| Id := Id r; Type_ := Type_ r; Name := Name r; Value := v; TTL := TTL r |}.

(** The [for _, r := range records] loop of [updateRecords]. *)
Fixpoint updateRecords_loop (api : GandiAPI) (zoneId version : Z) (ip : string)
    (records : list Record) : M (option error) :=
  match records with
  | [] => ret None
  | r :: rest =>
      if negb (Type_ r =? "A")%string || (Value r =? ip)%string then
        updateRecords_loop api zoneId version ip rest
      else
        let r := with_Value r ip in
        print (Println [PStr "updating"; PRec r]) ;;;
        d <- DeleteRecord api zoneId version (Id r) ;;
        match d with
        | Fail err => ret (Some err)
        | Ok n =>
            if n <? 1 then ret (Some (Errorf "no record deleted"))
            else
              a <- AddRecord api zoneId version r ;;
              match a with
              | Fail err => ret (Some err)
              | Ok _ => updateRecords_loop api zoneId version ip rest
              end
        end
  end.

(** [updateRecords]: its [records] argument is overwritten by the listing
    of [version] before it is read. *)
Definition updateRecords (api : GandiAPI) (records : list Record)
    (zoneId version : Z) (ip : string) : M (option error) :=
  l <- GetZoneRecords api zoneId version ;;
  match l with
  | Fail err => ret (Some err)
  | Ok records => updateRecords_loop api zoneId version ip records
  end.

(** The drift test of [checkIP]: the loop that sets [changed] and breaks. *)
Definition changed (ip : string) (records : list Record) : bool :=
  existsb (fun r => (Type_ r =? "A")%string && negb (Value r =? ip)%string) records.

(** [checkIP] from the drift test to its end (the zone update transaction
    of the spec): what runs once the IP, the zone and the records of the
    active version are known. *)
Definition checkIP_transaction (api : GandiAPI) (zoneId : Z) (ip : string)
    (records : list Record) : M (option error) :=
  let newRecords : list Record := [] in
  if negb (changed ip records) then
    print (Println [PStr "unchanged ip"]) ;;;
    ret None
  else
    c <- CopyZoneVersion api zoneId ;;
    match c with
    | Fail err => ret (Some err)
    | Ok newVersion =>
        u <- updateRecords api newRecords zoneId newVersion ip ;;
        match u with
        | Some err =>
            print (Println [PStr "failed to apply records, deleting zone version"]) ;;;
            err2 <- DeleteZoneVersion api zoneId newVersion ;;
            match err2 with
            | Some _ => print (Println [PStr "zone version deletion failed: %s"; PErr err])
            | None => ret tt
            end ;;;
            ret (Some err)
        | None =>
            a <- SetZoneVersion api zoneId newVersion ;;
            match a with
            | Some err =>
                print (Println [PStr "zone activation failed: %s"; PErr err]) ;;;
                ret (Some err)
            | None =>
                print (Println [PStr "zone activated"]) ;;;
                ret (Some (Errorf ("ip changed to " ++ ip)))
            end
        end
    end.

Definition usage_text : string :=
"Usage: gandi-dyn apikey mydomain.org

gandi-dyn fetches A records from Gandi for a domain using their API. If the
record value differs from the current IP obtained from a third-party service, a
new zone version is created, updated with the new address and activated.
".

(** How [checkIP] ends: it returns its [error], or [flag.Usage] has called
    [os.Exit]. *)
Inductive Outcome :=
| Returned (err : option error)
| Exited (code : Z).

(** [flag.Usage] as set by [checkIP]. *)
Definition Usage : M Outcome :=
  print (Println [PStr usage_text]) ;;;
  ret (Exited 1).

Definition checkIP (args : list string) : M Outcome :=
  match flag.Parse args with
  | flag.Help => Usage
  | flag.Failf msg => eprint (Println [PErr (Errorf msg)]) ;;; Usage
  | flag.Args positional =>
      if Z.of_nat (List.length positional) <? 1 then
        ret (Returned (Some (Errorf "missing api-key argument")))
      else if Z.of_nat (List.length positional) <? 2 then
        ret (Returned (Some (Errorf "missing domain argument")))
      else
        let key := List.nth 0 positional "" in
        let domain := List.nth 1 positional "" in
        i <- getMyIP ;;
        match i with
        | Fail err => ret (Returned (Some err))
        | Ok ip =>
            print (Println [PStr ip]) ;;;
            match NewGandiAPI key with
            | Fail err => ret (Returned (Some err))
            | Ok api =>
                z <- GetZoneId api domain ;;
                match z with
                | Fail err => ret (Returned (Some err))
                | Ok zoneId =>
                    print (Println [PStr "zoneid"; PInt zoneId]) ;;;
                    l <- GetZoneRecords api zoneId 0 ;;
                    match l with
                    | Fail err => ret (Returned (Some err))
                    | Ok records =>
                        e <- checkIP_transaction api zoneId ip records ;;
                        ret (Returned e)
                    end
                end
            end
        end
  end.

(** [main]: the exit status of the process. *)
Definition main (args : list string) : M Z :=
  o <- checkIP args ;;
  match o with
  | Exited code => ret code
  | Returned (Some err) =>
      eprint (Fprintf ("err: %s" ++ LF) [PErr err]) ;;;
      ret 1
  | Returned None => ret 0
  end.

End Program.

Arguments world {W} s.
Arguments trace {W} s.
Arguments stdout {W} s.
Arguments stderr {W} s.

(** The state a process starts in: nothing called, nothing printed. *)
Definition start {W} (w : W) : State W :=
  {| world := w; trace := []; stdout := []; stderr := [] |}.

(** ** A scripted platform, for running the program on examples *)

Module Sample.

Definition DQ : string := String "034"%char "".

Fixpoint strip_prefix (p s : string) : option string :=
  match p, s with
  | EmptyString, _ => Some s
  | String a p', String b s' => if Ascii.eqb a b then strip_prefix p' s' else None
  | _, _ => None
  end.

Fixpoint until_quote (s : string) : option (string * string) :=
  match s with
  | EmptyString => None
  | String c rest =>
      if Ascii.eqb c "034" then Some ("", rest)
      else match until_quote rest with
           | Some (v, tl) => Some (String c v, tl)
           | None => None
           end
  end.

(** The body the IP service sends for the address [ip]. *)
Definition ip_body (ip : string) : string :=
  "{" ++ DQ ++ "ip" ++ DQ ++ ":" ++ DQ ++ ip ++ DQ ++ "}".

(** A stand-in for [json.Unmarshal] into [struct{IP string}], exact on
    the bodies [ip_body ip] where [ip] has no quote and no backslash. *)
Definition Unmarshal (data : string) : reply string :=
  match strip_prefix ("{" ++ DQ ++ "ip" ++ DQ ++ ":" ++ DQ) data with
  | Some rest =>
      match until_quote rest with
      | Some (v, "}") => Reply v
      | _ => Fault "invalid character"
      end
  | None => Fault "invalid character"
  end.

(** What the remote services answer in one scenario.  The zone is 42, the
    clone is version 7, and both listings give [sc_records]. *)
Record Scenario := {
  sc_ip : string;
  sc_records : list Record;
  sc_deleted : reply Z;
  sc_added : reply Record;
  sc_set : reply bool;
  sc_version_deleted : reply bool
}.

Definition platform (s : Scenario) : Platform unit := {|
  http_Get := fun _ w => (Reply {| StatusCode := 200; Body := Reply (ip_body (sc_ip s)) |}, w);
  json_Unmarshal := Unmarshal;
  xmlrpc_NewClient := fun _ => None;
  domain_info := fun _ _ w => (Reply 42, w);
  domain_zone_record_list := fun _ _ _ w => (Reply (sc_records s), w);
  domain_zone_version_new := fun _ _ w => (Reply 7, w);
  domain_zone_record_delete := fun _ _ _ _ w => (sc_deleted s, w);
  domain_zone_record_add := fun _ _ _ _ w => (sc_added s, w);
  domain_zone_version_set := fun _ _ _ w => (sc_set s, w);
  domain_zone_version_delete := fun _ _ _ w => (sc_version_deleted s, w)
|}.

Definition rec1001 : Record :=
  {| Id := "1001"; Type_ := "A"; Name := "@"; Value := "1.2.3.4"; TTL := 300 |}.

Definition rec2002 : Record :=
  {| Id := "2002"; Type_ := "A"; Name := "@"; Value := "5.6.7.8"; TTL := 300 |}.

Definition recMX : Record :=
  {| Id := "1002"; Type_ := "MX"; Name := "@"; Value := "10 mail"; TTL := 300 |}.

(** An "A" record whose identifier is no integer. *)
Definition recBad : Record :=
  {| Id := "12x"; Type_ := "A"; Name := "www"; Value := "1.2.3.4"; TTL := 300 |}.

(** The scenarios of the spec: an address that moved to 5.6.7.8, with
    every call succeeding. *)
Definition moved : Scenario := {|
  sc_ip := "5.6.7.8";
  sc_records := [recMX; rec1001];
  sc_deleted := Reply 1;
  sc_added := Reply rec2002;
  sc_set := Reply true;
  sc_version_deleted := Reply true
|}.

Definition unmoved : Scenario := {|
  sc_ip := "1.2.3.4";
  sc_records := [recMX; rec1001];
  sc_deleted := Reply 1;
  sc_added := Reply rec2002;
  sc_set := Reply true;
  sc_version_deleted := Reply true
|}.

Definition with_deleted (s : Scenario) (r : reply Z) : Scenario :=
  {| sc_ip := sc_ip s; sc_records := sc_records s; sc_deleted := r;
     sc_added := sc_added s; sc_set := sc_set s;
     sc_version_deleted := sc_version_deleted s |}.

Definition with_added (s : Scenario) (r : reply Record) : Scenario :=
  {| sc_ip := sc_ip s; sc_records := sc_records s; sc_deleted := sc_deleted s;
     sc_added := r; sc_set := sc_set s;
     sc_version_deleted := sc_version_deleted s |}.

Definition with_set (s : Scenario) (r : reply bool) : Scenario :=
  {| sc_ip := sc_ip s; sc_records := sc_records s; sc_deleted := sc_deleted s;
     sc_added := sc_added s; sc_set := r;
     sc_version_deleted := sc_version_deleted s |}.

Definition with_version_deleted (s : Scenario) (r : reply bool) : Scenario :=
  {| sc_ip := sc_ip s; sc_records := sc_records s; sc_deleted := sc_deleted s;
     sc_added := sc_added s; sc_set := sc_set s;
     sc_version_deleted := r |}.

Definition with_ip (s : Scenario) (ip : string) : Scenario :=
  {| sc_ip := ip; sc_records := sc_records s; sc_deleted := sc_deleted s;
     sc_added := sc_added s; sc_set := sc_set s;
     sc_version_deleted := sc_version_deleted s |}.

Definition with_records (s : Scenario) (l : list Record) : Scenario :=
  {| sc_ip := sc_ip s; sc_records := l; sc_deleted := sc_deleted s;
     sc_added := sc_added s; sc_set := sc_set s;
     sc_version_deleted := sc_version_deleted s |}.

Definition api : GandiAPI := {| key := "apikey" |}.

Definition argv : list string := ["apikey"; "example.org"].

End Sample.

(** ** Vocabulary of the statements *)

Local Open Scope list_scope.

(** A record the update acts on: type "A" and a value other than [ip]. *)
Definition differs (ip : string) (r : Record) : bool :=
  (Type_ r =? "A")%string && negb (Value r =? ip)%string.

(** The record sent in place of [r]. *)
Definition replacement (ip : string) (r : Record) : NewRecord :=
  {| NewType := Type_ r; NewName := Name r; NewValue := ip; NewTTL := TTL r |}.

Definition is_clone (ev : Event) : bool :=
  match ev with EvVersionNew _ _ _ => true | _ => false end.

Definition is_activate (ev : Event) : bool :=
  match ev with EvVersionSet _ _ _ _ => true | _ => false end.

Definition is_version_delete (ev : Event) : bool :=
  match ev with EvVersionDelete _ _ _ _ => true | _ => false end.

Definition is_change (ev : Event) : bool :=
  match ev with
  | EvRecordDelete _ _ _ _ _ | EvRecordAdd _ _ _ _ _ => true
  | _ => false
  end.

(** The calls that change something at the registrar. *)
Definition mutating (ev : Event) : bool :=
  match ev with
  | EvVersionNew _ _ _ | EvRecordDelete _ _ _ _ _ | EvRecordAdd _ _ _ _ _
  | EvVersionSet _ _ _ _ | EvVersionDelete _ _ _ _ => true
  | _ => false
  end.

Definition reply_failed {A} (r : reply A) : bool :=
  match r with Reply _ => false | Fault _ => true end.

Definition flag_failed (r : reply bool) : bool :=
  match r with Reply true => false | _ => true end.

(** A call that did not do its work: a fault, a deletion count below one,
    or [false] from activation or version deletion. *)
Definition call_failed (ev : Event) : bool :=
  match ev with
  | EvHttpGet _ r => reply_failed r
  | EvDomainInfo _ _ r => reply_failed r
  | EvRecordList _ _ _ r => reply_failed r
  | EvVersionNew _ _ r => reply_failed r
  | EvRecordDelete _ _ _ _ (Reply n) => n <? 1
  | EvRecordDelete _ _ _ _ (Fault _) => true
  | EvRecordAdd _ _ _ _ r => reply_failed r
  | EvVersionSet _ _ _ r => flag_failed r
  | EvVersionDelete _ _ _ r => flag_failed r
  end.

(** [change_failure ev err]: [ev] is a record-delete or record-add call
    that failed, and [err] is the error it gives rise to. *)
Inductive change_failure : Event -> error -> Prop :=
| CF_delete_fault k z v id msg :
    change_failure (EvRecordDelete k z v id (Fault msg)) (External msg)
| CF_delete_none k z v id n :
    n < 1 ->
    change_failure (EvRecordDelete k z v id (Reply n)) (Errorf "no record deleted")
| CF_add_fault k z v rec msg :
    change_failure (EvRecordAdd k z v rec (Fault msg)) (External msg).

(** [replaced k z v ip r pair]: [pair] is a successful delete of [r] by
    its identifier followed by a successful add of its replacement. *)
Definition replaced (k : string) (z v : Z) (ip : string) (r : Record)
    (pair : list Event) : Prop :=
  exists id n created,
    strconv.ParseInt (Id r) = Ok id /\ 1 <= n /\
    pair = [EvRecordDelete k z v id (Reply n);
            EvRecordAdd k z v (replacement ip r) (Reply created)].

(** Big-step reading of the loop of [updateRecords]: the records left, the
    error returned, and the calls made. *)
Inductive LoopRun (k : string) (z v : Z) (ip : string)
  : list Record -> option error -> list Event -> Prop :=
| LR_done : LoopRun k z v ip [] None []
| LR_skip r rest res evs :
    differs ip r = false ->
    LoopRun k z v ip rest res evs ->
    LoopRun k z v ip (r :: rest) res evs
| LR_parse r rest err :
    differs ip r = true ->
    strconv.ParseInt (Id r) = Fail err ->
    LoopRun k z v ip (r :: rest) (Some err) []
| LR_delete_fault r rest id msg :
    differs ip r = true ->
    strconv.ParseInt (Id r) = Ok id ->
    LoopRun k z v ip (r :: rest) (Some (External msg))
      [EvRecordDelete k z v id (Fault msg)]
| LR_delete_none r rest id n :
    differs ip r = true ->
    strconv.ParseInt (Id r) = Ok id ->
    n < 1 ->
    LoopRun k z v ip (r :: rest) (Some (Errorf "no record deleted"))
      [EvRecordDelete k z v id (Reply n)]
| LR_add_fault r rest id n msg :
    differs ip r = true ->
    strconv.ParseInt (Id r) = Ok id ->
    1 <= n ->
    LoopRun k z v ip (r :: rest) (Some (External msg))
      [EvRecordDelete k z v id (Reply n);
       EvRecordAdd k z v (replacement ip r) (Fault msg)]
| LR_replaced r rest id n created res evs :
    differs ip r = true ->
    strconv.ParseInt (Id r) = Ok id ->
    1 <= n ->
    LoopRun k z v ip rest res evs ->
    LoopRun k z v ip (r :: rest) res
      (EvRecordDelete k z v id (Reply n)
       :: EvRecordAdd k z v (replacement ip r) (Reply created) :: evs).

(** What [checkIP] prints while rolling back, and what it returns and
    prints after the activation call. *)
Definition rollback_log (err : error) (dr : reply bool) : list Write :=
  Println [PStr "failed to apply records, deleting zone version"]
  :: (if flag_failed dr
      then [Println [PStr "zone version deletion failed: %s"; PErr err]]
      else []).

Definition activation_error (ip : string) (sr : reply bool) : error :=
  match sr with
  | Fault msg => External msg
  | Reply false => Errorf "zone activation failed for unknown reason"
  | Reply true => Errorf ("ip changed to " ++ ip)%string
  end.

Definition activation_log (ip : string) (sr : reply bool) : list Write :=
  if flag_failed sr
  then [Println [PStr "zone activation failed: %s"; PErr (activation_error ip sr)]]
  else [Println [PStr "zone activated"]].

(** Big-step reading of [checkIP_transaction] once a change is detected:
    the error returned, the calls made, and the last lines printed. *)
Inductive TxRun (k : string) (z : Z) (ip : string)
  : option error -> list Event -> list Write -> Prop :=
| Tx_clone_fault msg :
    TxRun k z ip (Some (External msg)) [EvVersionNew k z (Fault msg)] []
| Tx_list_fault v msg dr :
    TxRun k z ip (Some (External msg))
      [EvVersionNew k z (Reply v); EvRecordList k z v (Fault msg);
       EvVersionDelete k z v dr]
      (rollback_log (External msg) dr)
| Tx_rollback v records err uevs dr :
    LoopRun k z v ip records (Some err) uevs ->
    TxRun k z ip (Some err)
      (EvVersionNew k z (Reply v) :: EvRecordList k z v (Reply records)
       :: uevs ++ [EvVersionDelete k z v dr])
      (rollback_log err dr)
| Tx_activate v records uevs sr :
    LoopRun k z v ip records None uevs ->
    TxRun k z ip (Some (activation_error ip sr))
      (EvVersionNew k z (Reply v) :: EvRecordList k z v (Reply records)
       :: uevs ++ [EvVersionSet k z v sr])
      (activation_log ip sr).

(** [st'] is [st] after the calls [evs] and the lines [outs] on standard
    output, standard error untouched. *)
Definition extends {W} (st st' : State W) (evs : list Event) (outs : list Write) : Prop :=
  trace st' = trace st ++ evs /\
  stdout st' = stdout st ++ outs /\
  stderr st' = stderr st.

(** [stops_at k z v ip r err tail]: the loop of [updateRecords] gives up
    on the record [r] with the error [err] after the calls [tail]: the
    identifier does not parse (no call), the delete call fails or deletes
    nothing, or the add call fails. *)
Inductive stops_at (k : string) (z v : Z) (ip : string) (r : Record)
  : error -> list Event -> Prop :=
| SA_parse err :
    strconv.ParseInt (Id r) = Fail err ->
    stops_at k z v ip r err []
| SA_delete_fault id msg :
    strconv.ParseInt (Id r) = Ok id ->
    stops_at k z v ip r (External msg) [EvRecordDelete k z v id (Fault msg)]
| SA_delete_none id n :
    strconv.ParseInt (Id r) = Ok id -> n < 1 ->
    stops_at k z v ip r (Errorf "no record deleted")
      [EvRecordDelete k z v id (Reply n)]
| SA_add_fault id n msg :
    strconv.ParseInt (Id r) = Ok id -> 1 <= n ->
    stops_at k z v ip r (External msg)
      [EvRecordDelete k z v id (Reply n);
       EvRecordAdd k z v (replacement ip r) (Fault msg)].

(** ** Vocabulary of the further properties *)

(** The strings a regular expression denotes. *)
Inductive Matches : regexp.Regexp -> string -> Prop :=
| M_Eps : Matches regexp.Eps ""
| M_Class p c : p c = true -> Matches (regexp.Class p) (String c "")
| M_Cat r1 r2 s1 s2 :
    Matches r1 s1 -> Matches r2 s2 ->
    Matches (regexp.Cat r1 r2) (s1 ++ s2)%string
| M_AltL r1 r2 s : Matches r1 s -> Matches (regexp.Alt r1 r2) s
| M_AltR r1 r2 s : Matches r2 s -> Matches (regexp.Alt r1 r2) s
| M_Star0 r : Matches (regexp.Star r) ""
| M_StarS r s1 s2 :
    Matches r s1 -> Matches (regexp.Star r) s2 ->
    Matches (regexp.Star r) (s1 ++ s2)%string.

(** [s] contains four non-empty runs of decimal digits separated by
    three dots. *)
Definition contains_dotted_quad (s : string) : Prop :=
  exists pre a b c d post,
    s = (pre ++ (a ++ "." ++ b ++ "." ++ c ++ "." ++ d) ++ post)%string /\
    digit_run a = true /\ digit_run b = true /\
    digit_run c = true /\ digit_run d = true.

(** The credential, the zone and the version a call carries. *)
Definition event_key (ev : Event) : option string :=
  match ev with
  | EvHttpGet _ _ => None
  | EvDomainInfo k _ _ | EvRecordList k _ _ _ | EvVersionNew k _ _
  | EvRecordDelete k _ _ _ _ | EvRecordAdd k _ _ _ _
  | EvVersionSet k _ _ _ | EvVersionDelete k _ _ _ => Some k
  end.

Definition event_zone (ev : Event) : option Z :=
  match ev with
  | EvHttpGet _ _ | EvDomainInfo _ _ _ => None
  | EvRecordList _ z _ _ | EvVersionNew _ z _
  | EvRecordDelete _ z _ _ _ | EvRecordAdd _ z _ _ _
  | EvVersionSet _ z _ _ | EvVersionDelete _ z _ _ => Some z
  end.

Definition event_version (ev : Event) : option Z :=
  match ev with
  | EvHttpGet _ _ | EvDomainInfo _ _ _ | EvVersionNew _ _ _ => None
  | EvRecordList _ _ v _
  | EvRecordDelete _ _ v _ _ | EvRecordAdd _ _ v _ _
  | EvVersionSet _ _ v _ | EvVersionDelete _ _ v _ => Some v
  end.

(** Platforms derived from another one, for running the program on
    failures of the services. *)
Module Variants.

(** The IP service answers [r] to every request. *)
Definition http_answers {W} (P : Platform W) (r : reply HttpResponse) : Platform W := {|
  http_Get := fun _ w => (r, w);
  json_Unmarshal := json_Unmarshal P;
  xmlrpc_NewClient := xmlrpc_NewClient P;
  domain_info := domain_info P;
  domain_zone_record_list := domain_zone_record_list P;
  domain_zone_version_new := domain_zone_version_new P;
  domain_zone_record_delete := domain_zone_record_delete P;
  domain_zone_record_add := domain_zone_record_add P;
  domain_zone_version_set := domain_zone_version_set P;
  domain_zone_version_delete := domain_zone_version_delete P
|}.

(** Listing any version but the active one fails with [msg]. *)
Definition clone_unlistable {W} (P : Platform W) (msg : string) : Platform W := {|
  http_Get := http_Get P;
  json_Unmarshal := json_Unmarshal P;
  xmlrpc_NewClient := xmlrpc_NewClient P;
  domain_info := domain_info P;
  domain_zone_record_list := fun k z v w =>
    if v =? 0 then domain_zone_record_list P k z v w else (Fault msg, w);
  domain_zone_version_new := domain_zone_version_new P;
  domain_zone_record_delete := domain_zone_record_delete P;
  domain_zone_record_add := domain_zone_record_add P;
  domain_zone_version_set := domain_zone_version_set P;
  domain_zone_version_delete := domain_zone_version_delete P
|}.

(** The clone call fails with [msg]. *)
Definition clone_fails {W} (P : Platform W) (msg : string) : Platform W := {|
  http_Get := http_Get P;
  json_Unmarshal := json_Unmarshal P;
  xmlrpc_NewClient := xmlrpc_NewClient P;
  domain_info := domain_info P;
  domain_zone_record_list := domain_zone_record_list P;
  domain_zone_version_new := fun _ _ w => (Fault msg, w);
  domain_zone_record_delete := domain_zone_record_delete P;
  domain_zone_record_add := domain_zone_record_add P;
  domain_zone_version_set := domain_zone_version_set P;
  domain_zone_version_delete := domain_zone_version_delete P
|}.

(** The XML-RPC client cannot be built. *)
Definition client_fails {W} (P : Platform W) (msg : string) : Platform W := {|
  http_Get := http_Get P;
  json_Unmarshal := json_Unmarshal P;
  xmlrpc_NewClient := fun _ => Some msg;
  domain_info := domain_info P;
  domain_zone_record_list := domain_zone_record_list P;
  domain_zone_version_new := domain_zone_version_new P;
  domain_zone_record_delete := domain_zone_record_delete P;
  domain_zone_record_add := domain_zone_record_add P;
  domain_zone_version_set := domain_zone_version_set P;
  domain_zone_version_delete := domain_zone_version_delete P
|}.

(** The zone lookup fails with [msg]. *)
Definition zone_unknown {W} (P : Platform W) (msg : string) : Platform W := {|
  http_Get := http_Get P;
  json_Unmarshal := json_Unmarshal P;
  xmlrpc_NewClient := xmlrpc_NewClient P;
  domain_info := fun _ _ w => (Fault msg, w);
  domain_zone_record_list := domain_zone_record_list P;
  domain_zone_version_new := domain_zone_version_new P;
  domain_zone_record_delete := domain_zone_record_delete P;
  domain_zone_record_add := domain_zone_record_add P;
  domain_zone_version_set := domain_zone_version_set P;
  domain_zone_version_delete := domain_zone_version_delete P
|}.

End Variants.

(** * Running the monad backwards *)

Section Inversion.

Variable W : Type.
Variable P : Platform W.

Lemma skip_test_differs ip r :
  negb (Type_ r =? "A")%string || (Value r =? ip)%string = negb (differs ip r).
Proof.
  unfold differs.
  destruct (Type_ r =? "A")%string, (Value r =? ip)%string; reflexivity.
Qed.

Lemma changed_existsb ip records :
  changed ip records = existsb (differs ip) records.
Proof. reflexivity. Qed.

Lemma extends_refl (st : State W) : extends st st [] [].
Proof. unfold extends; rewrite !app_nil_r; auto. Qed.

Lemma extends_trans (st1 st2 st3 : State W) e1 o1 e2 o2 :
  extends st1 st2 e1 o1 -> extends st2 st3 e2 o2 ->
  extends st1 st3 (e1 ++ e2) (o1 ++ o2).
Proof.
  unfold extends; intros (T1 & O1 & E1) (T2 & O2 & E2).
  rewrite T2, T1, O2, O1, E2, E1, !app_assoc; auto.
Qed.

Lemma bind_inv A B (c : M W A) (k : A -> M W B) st b st' :
  bind c k st = (b, st') ->
  exists a st1, c st = (a, st1) /\ k a st1 = (b, st').
Proof.
  unfold bind; destruct (c st) as [a st1]; intros H; exists a, st1; auto.
Qed.

Lemma ret_inv A (a b : A) (st st' : State W) :
  ret a st = (b, st') -> b = a /\ st' = st.
Proof. unfold ret; intros H; inversion H; auto. Qed.

Lemma call_inv A (f : W -> reply A * W) ev (st : State W) r st' :
  call f ev st = (r, st') ->
  exists rp, r = of_reply rp /\ extends st st' [ev rp] [].
Proof.
  unfold call; destruct (f (world st)) as [rp w]; intros H; inversion H; subst.
  exists rp; unfold extends; cbn; rewrite app_nil_r; auto.
Qed.

Lemma print_inv w (st : State W) u st' :
  print w st = (u, st') -> extends st st' [] [w].
Proof.
  unfold print; intros H; inversion H; subst.
  unfold extends; cbn; rewrite app_nil_r; auto.
Qed.

End Inversion.

(** One step of symbolic execution of a monadic run held in a hypothesis. *)
Ltac run_step :=
  match goal with
  | H : bind _ _ _ = (_, _) |- _ =>
      let a := fresh "a" in let s := fresh "st" in
      let H1 := fresh "R" in let H2 := fresh "R" in
      apply bind_inv in H; destruct H as (a & s & H1 & H2)
  | H : ret _ _ = (_, _) |- _ =>
      apply ret_inv in H; destruct H; subst
  | H : print _ _ = (_, _) |- _ => apply print_inv in H
  | H : call _ _ _ = (_, _) |- _ =>
      let rp := fresh "rp" in let E := fresh "E" in
      apply call_inv in H; destruct H as (rp & E & H); subst
  end.

(** Chains the [extends] facts collected along a run. *)
Ltac chain :=
  repeat match goal with
  | X : extends ?a ?b _ _, Y : extends ?b ?c _ _ |- _ =>
      let Z := fresh "X" in
      pose proof (extends_trans X Y) as Z; clear X Y;
      rewrite ?app_nil_r, <- ?app_assoc in Z; cbn [app] in Z
  end.

(** Case analysis on the reply of the call met last. *)
Ltac case_reply x :=
  match goal with
  | H : context [of_reply ?rp] |- _ =>
      is_var rp; destruct rp as [x|x]; cbn [of_reply] in *
  end.

Ltac close_run :=
  chain; eexists; eexists; split; [eassumption|].

(** Closes the case of an error returned before any mutating call. *)
Ltac early pos :=
  chain; left; exists pos; do 3 eexists;
  split; [reflexivity|]; split; [reflexivity|];
  split; [first [eassumption | apply extends_refl]|repeat constructor].

Section Runs.

Variable W : Type.
Variable P : Platform W.

(** The loop of [updateRecords] follows [LoopRun]. *)
Lemma updateRecords_loop_run api z v ip records :
  forall st res st',
    updateRecords_loop P api z v ip records st = (res, st') ->
    exists evs outs,
      extends st st' evs outs /\ LoopRun (key api) z v ip records res evs.
Proof.
  induction records as [|r rest IH]; intros st res st' H.
  - cbn in H. run_step. exists [], []; split; [apply extends_refl | constructor].
  - cbn [updateRecords_loop] in H. rewrite skip_test_differs in H.
    destruct (differs ip r) eqn:D; cbn [negb] in H.
    + repeat run_step. unfold DeleteRecord in *. cbn [with_Value Id] in *.
      destruct (strconv.ParseInt (Id r)) as [id|err] eqn:PI.
      * repeat run_step. case_reply n.
        -- destruct (n <? 1) eqn:N.
           ++ repeat run_step. apply Z.ltb_lt in N. close_run.
              apply LR_delete_none; auto.
           ++ apply Z.ltb_ge in N. repeat run_step.
              unfold AddRecord in *; cbn [with_Value Type_ Name Value TTL] in *.
              fold (replacement ip r) in *. repeat run_step.
              case_reply created.
              ** match goal with
                 | L : updateRecords_loop _ _ _ _ _ _ _ = _ |- _ =>
                     apply IH in L; destruct L as (evs & outs & X & L)
                 end.
                 close_run. eapply LR_replaced; eauto.
              ** repeat run_step. close_run. eapply LR_add_fault; eauto.
        -- repeat run_step. close_run. eapply LR_delete_fault; eauto.
      * repeat run_step. close_run. apply LR_parse; auto.
    + apply IH in H. destruct H as (evs & outs & X & L).
      exists evs, outs; split; auto. apply LR_skip; auto.
Qed.

(** [updateRecords]: the listing, then the loop. *)
Lemma updateRecords_run api recs0 z v ip st res st' :
  updateRecords P api recs0 z v ip st = (res, st') ->
  (exists msg,
      res = Some (External msg) /\
      extends st st' [EvRecordList (key api) z v (Fault msg)] []) \/
  (exists records uevs outs,
      extends st st' (EvRecordList (key api) z v (Reply records) :: uevs) outs /\
      LoopRun (key api) z v ip records res uevs).
Proof.
  unfold updateRecords, GetZoneRecords; intros H.
  repeat run_step. case_reply records.
  - right. apply updateRecords_loop_run in R0.
    destruct R0 as (evs & outs & X & L). chain. eauto.
  - left. repeat run_step. eauto.
Qed.

(** With no record to change, [checkIP_transaction] only prints. *)
Lemma transaction_unchanged api z ip records st :
  changed ip records = false ->
  checkIP_transaction P api z ip records st =
    (None, {| world := world st; trace := trace st;
              stdout := stdout st ++ [Println [PStr "unchanged ip"]];
              stderr := stderr st |}).
Proof.
  intros C; unfold checkIP_transaction; rewrite C; reflexivity.
Qed.

(** With a record to change, [checkIP_transaction] follows [TxRun]. *)
Lemma transaction_run api z ip records st res st' :
  changed ip records = true ->
  checkIP_transaction P api z ip records st = (res, st') ->
  exists evs outs0 outs,
    extends st st' evs (outs0 ++ outs) /\ TxRun (key api) z ip res evs outs.
Proof.
  intros C H; unfold checkIP_transaction in H; rewrite C in H; cbn [negb] in H.
  unfold CopyZoneVersion in H. repeat run_step. case_reply v.
  - repeat run_step.
    match goal with
    | U : updateRecords _ _ _ _ _ _ _ = _ |- _ =>
        apply updateRecords_run in U;
        destruct U as [(msg & -> & X)|(records' & uevs & outs & X & L)]
    end.
    + unfold DeleteZoneVersion in *. repeat run_step. case_reply ok;
        [destruct ok; cbn [negb] in *|]; repeat run_step; chain;
        eexists; exists []; eexists; (split; [eassumption|]);
        apply Tx_list_fault.
    + match goal with
      | H : match ?a with Some _ => _ | None => _ end _ = _ |- _ =>
          destruct a as [err|]
      end.
      * unfold DeleteZoneVersion in *. repeat run_step. case_reply ok;
          [destruct ok; cbn [negb] in *|]; repeat run_step; chain;
          eexists; exists outs; eexists; (split; [eassumption|]);
          apply Tx_rollback; assumption.
      * unfold SetZoneVersion in *. repeat run_step. case_reply ok;
          [destruct ok; cbn [negb] in *|]; repeat run_step; chain;
          eexists; exists outs; eexists; (split; [eassumption|]).
        -- apply Tx_activate with (sr := Reply true); assumption.
        -- apply Tx_activate with (sr := Reply false); assumption.
        -- apply Tx_activate with (sr := Fault ok); assumption.
  - repeat run_step. exists [EvVersionNew (key api) z (Fault v)], [], [].
    split; [assumption | constructor].
Qed.

End Runs.

(** ** Facts about the two big-step readings *)

Lemma differs_true_iff ip r :
  differs ip r = true <-> Type_ r = "A"%string /\ Value r <> ip.
Proof.
  unfold differs; rewrite andb_true_iff, negb_true_iff, String.eqb_eq, String.eqb_neq.
  reflexivity.
Qed.

Lemma changed_true_iff ip records :
  changed ip records = true <->
  exists r, In r records /\ Type_ r = "A"%string /\ Value r <> ip.
Proof.
  unfold changed; rewrite existsb_exists; split; intros (r & I & H); exists r;
    (split; [exact I|]); apply (differs_true_iff ip r); exact H.
Qed.

Lemma changed_false_iff ip records :
  changed ip records = false <->
  forall r, In r records -> Type_ r = "A"%string -> Value r = ip.
Proof.
  split.
  - intros C r I T. destruct (String.eqb_spec (Value r) ip) as [E|N]; auto.
    assert (changed ip records = true) as C1
      by (apply changed_true_iff; exists r; auto).
    congruence.
  - intros H. destruct (changed ip records) eqn:C; auto.
    apply changed_true_iff in C. destruct C as (r & I & T & N).
    elim N; auto.
Qed.

(** [ParseInt] fails only with a [NumError] naming its input. *)
Lemma ParseInt_Fail s err :
  strconv.ParseInt s = Fail err ->
  exists kind, err = NumError "ParseInt" s kind.
Proof.
  unfold strconv.ParseInt. destruct s as [|c rest]; intros H.
  - inversion H; eauto.
  - cbv zeta in H.
    destruct (strconv.ParseUint _) as [un| |];
      repeat match type of H with
             | (if ?b then _ else _) = _ => destruct b
             end; inversion H; eauto.
Qed.

Lemma is_digit_val c :
  strconv.is_digit c = true -> 0 <= strconv.digit_val c <= 9.
Proof.
  unfold strconv.is_digit, strconv.digit_val; cbv zeta.
  rewrite andb_true_iff, !Z.leb_le. lia.
Qed.

Lemma parse_digits_bounds s :
  forall n m,
    0 <= n <= strconv.maxUint64 ->
    strconv.parse_digits s n = strconv.UVal m ->
    0 <= m <= strconv.maxUint64.
Proof.
  induction s as [|c rest IH]; cbn [strconv.parse_digits]; intros n m N H.
  - inversion H; subst; exact N.
  - destruct (strconv.is_digit c) eqn:D; cbn [negb] in H; [|discriminate].
    destruct (strconv.maxUint64 / 10 + 1 <=? n); [discriminate|].
    cbv zeta in H.
    destruct (strconv.maxUint64 <? n * 10 + strconv.digit_val c) eqn:O;
      [discriminate|].
    apply Z.ltb_ge in O. apply is_digit_val in D.
    apply IH in H; auto. lia.
Qed.

(** [ParseInt] never wraps: a value it returns is within 64 bits. *)
Lemma ParseInt_range s z :
  strconv.ParseInt s = Ok z -> - 2 ^ 63 <= z < 2 ^ 63.
Proof.
  unfold strconv.ParseInt. destruct s as [|c rest]; [discriminate|].
  cbv zeta.
  set (body := if Ascii.eqb c "+" then rest
               else if Ascii.eqb c "-" then rest else String c rest).
  destruct (strconv.ParseUint body) as [un| |] eqn:PU; try discriminate.
  assert (0 <= un <= strconv.maxUint64) as B.
  { unfold strconv.ParseUint in PU. destruct body; [discriminate|].
    apply parse_digits_bounds in PU; auto. unfold strconv.maxUint64; lia. }
  destruct (Ascii.eqb c "-"); cbn [negb andb].
  - destruct (2 ^ 63 <? un) eqn:C; [discriminate|].
    apply Z.ltb_ge in C. intros H; inversion H; subst. lia.
  - destruct (2 ^ 63 <=? un) eqn:C; [discriminate|].
    apply Z.leb_gt in C. intros H; inversion H; subst. lia.
Qed.

Example ParseInt_wide : strconv.ParseInt "4294967296" = Ok 4294967296.
Proof. reflexivity. Qed.

Example ParseInt_too_wide :
  strconv.ParseInt "9223372036854775808"
  = Fail (NumError "ParseInt" "9223372036854775808" ErrRange).
Proof. reflexivity. Qed.

Section LoopRunFacts.

Variables (k : string) (z v : Z) (ip : string).

(** The loop only issues record-delete and record-add calls. *)
Lemma LoopRun_changes records res evs :
  LoopRun k z v ip records res evs ->
  Forall (fun ev => is_change ev = true) evs.
Proof. induction 1; repeat constructor; auto. Qed.

(** A loop that returns [nil] has replaced every differing record, in
    order, and has done nothing else. *)
Lemma LoopRun_done_pairs records evs :
  LoopRun k z v ip records None evs ->
  exists pairs,
    Forall2 (replaced k z v ip) (filter (differs ip) records) pairs /\
    evs = List.concat pairs.
Proof.
  intros L; remember None as res eqn:E; induction L; try discriminate.
  - exists []; split; constructor.
  - destruct (IHL E) as (pairs & F & ->). exists pairs; cbn.
    rewrite H; auto.
  - destruct (IHL E) as (pairs & F & ->).
    exists ([EvRecordDelete k z v id (Reply n);
             EvRecordAdd k z v (replacement ip r) (Reply created)] :: pairs).
    cbn; rewrite H; split; [|reflexivity].
    constructor; auto. exists id, n, created; auto.
Qed.

(** A failed change call is the last call of the loop, and its error is
    the one the loop returns. *)
Lemma LoopRun_failure records res evs ev err :
  LoopRun k z v ip records res evs ->
  In ev evs -> change_failure ev err ->
  res = Some err /\ exists pre, evs = pre ++ [ev].
Proof.
  intros L; induction L; cbn; intros I F; try tauto.
  - destruct I as [<-|[]]; inversion F; subst; split; auto; exists []; auto.
  - destruct I as [<-|[]]; inversion F; subst; try lia.
    split; auto; exists []; auto.
  - destruct I as [<-|[<-|[]]]; inversion F; subst; try lia.
    split; auto; eexists [_]; reflexivity.
  - destruct I as [<-|[<-|I]]; [inversion F; subst; lia | inversion F |].
    destruct (IHL I F) as (-> & pre & ->). split; auto.
    eexists (_ :: _ :: pre); reflexivity.
Qed.

(** A loop that returns an error has met a failed call or an identifier
    that does not parse. *)
Lemma LoopRun_error_cause records err evs :
  LoopRun k z v ip records (Some err) evs ->
  Exists (fun ev => call_failed ev = true) evs \/
  exists num kind, err = NumError "ParseInt" num kind.
Proof.
  intros L; remember (Some err) as res eqn:E; induction L; try discriminate.
  - auto.
  - right. inversion E; subst. apply ParseInt_Fail in H0. destruct H0; eauto.
  - left. constructor. reflexivity.
  - left. constructor. cbn. apply Z.ltb_lt; auto.
  - left. apply Exists_cons_tl. constructor. reflexivity.
  - destruct (IHL E) as [X|X]; [left|right]; auto.
Qed.

(** Every call of the loop deletes a differing record of the listing by
    its parsed identifier, or adds the replacement of one. *)
Lemma LoopRun_events records res evs ev :
  LoopRun k z v ip records res evs -> In ev evs ->
  exists r id,
    In r records /\ differs ip r = true /\ strconv.ParseInt (Id r) = Ok id /\
    ((exists dr, ev = EvRecordDelete k z v id dr) \/
     (exists ar, ev = EvRecordAdd k z v (replacement ip r) ar)).
Proof.
  intros L; induction L; cbn; intros I; try tauto.
  - destruct (IHL I) as (r0 & id & I0 & X). exists r0, id; cbn; tauto.
  - destruct I as [<-|[]]. exists r, id; cbn; intuition eauto.
  - destruct I as [<-|[]]. exists r, id; cbn; intuition eauto.
  - destruct I as [<-|[<-|[]]]; exists r, id; cbn; intuition eauto.
  - destruct I as [<-|[<-|I]]; [exists r, id; cbn; intuition eauto ..|].
    destruct (IHL I) as (r0 & id0 & I0 & X). exists r0, id0; cbn; tauto.
Qed.

(** The calls of the loop, exactly: one successful delete+add pair for
    each differing record in turn, up to the end of the listing or to the
    first record the loop gives up on. *)
Lemma LoopRun_shape records res evs :
  LoopRun k z v ip records res evs ->
  exists done todo pairs tail,
    filter (differs ip) records = done ++ todo /\
    Forall2 (replaced k z v ip) done pairs /\
    evs = List.concat pairs ++ tail /\
    ((todo = [] /\ tail = [] /\ res = None) \/
     (exists r rest err,
         todo = r :: rest /\ res = Some err /\ stops_at k z v ip r err tail)).
Proof.
  induction 1; cbn [filter];
    repeat match goal with D : differs _ _ = _ |- _ => rewrite D; clear D end.
  - exists [], [], [], []. repeat split; auto.
  - exact IHLoopRun.
  - exists [], (r :: filter (differs ip) rest), [], [].
    repeat split; auto. right. exists r, (filter (differs ip) rest), err.
    repeat split; auto. constructor; auto.
  - exists [], (r :: filter (differs ip) rest), [], [EvRecordDelete k z v id (Fault msg)].
    repeat split; auto. right. exists r, (filter (differs ip) rest), (External msg).
    repeat split; auto. econstructor; eauto.
  - exists [], (r :: filter (differs ip) rest), [], [EvRecordDelete k z v id (Reply n)].
    repeat split; auto. right.
    exists r, (filter (differs ip) rest), (Errorf "no record deleted").
    repeat split; auto. econstructor; eauto.
  - exists [], (r :: filter (differs ip) rest), [],
           [EvRecordDelete k z v id (Reply n);
            EvRecordAdd k z v (replacement ip r) (Fault msg)].
    repeat split; auto. right. exists r, (filter (differs ip) rest), (External msg).
    repeat split; auto. econstructor; eauto.
  - destruct IHLoopRun as (done & todo & pairs & tail & F & P2 & E & C).
    exists (r :: done), todo,
           ([EvRecordDelete k z v id (Reply n);
             EvRecordAdd k z v (replacement ip r) (Reply created)] :: pairs), tail.
    split; [cbn; rewrite F; reflexivity|].
    split; [constructor; auto; exists id, n, created; auto|].
    split; [cbn; rewrite E; reflexivity|exact C].
Qed.

(** A record the loop gives up on after calls that all succeeded has an
    identifier that does not parse. *)
Lemma stops_at_unparsable r err tail :
  stops_at k z v ip r err tail ->
  Forall (fun ev => call_failed ev = false) tail ->
  strconv.ParseInt (Id r) = Fail err.
Proof.
  intros S F; inversion S; subst; auto; exfalso.
  - inversion F; subst. discriminate.
  - inversion F; subst. cbn in *.
    match goal with X : (_ <? 1) = false |- _ => apply Z.ltb_ge in X end. lia.
  - inversion F as [|e l F1 F2]; subst. inversion F2; subst. discriminate.
Qed.

(** A loop that returns an error has met a failed call, or a differing
    record of the listing whose identifier does not parse, the error being
    the one of [ParseInt]. *)
Lemma LoopRun_error_source records err evs :
  LoopRun k z v ip records (Some err) evs ->
  Exists (fun ev => call_failed ev = true) evs \/
  exists r, In r records /\ differs ip r = true /\
            strconv.ParseInt (Id r) = Fail err.
Proof.
  intros L; remember (Some err) as res eqn:E; induction L; try discriminate.
  - destruct (IHL E) as [X|(r0 & I & D & PI)]; [left; auto|right].
    exists r0; cbn; auto.
  - right. inversion E; subst. exists r; cbn; auto.
  - left. constructor. reflexivity.
  - left. constructor. cbn. apply Z.ltb_lt; auto.
  - left. apply Exists_cons_tl. constructor. reflexivity.
  - destruct (IHL E) as [X|(r0 & I & D & PI)]; [left; auto|right].
    exists r0; cbn; auto.
Qed.

End LoopRunFacts.

Lemma filter_none A (f g : A -> bool) l :
  Forall (fun x => g x = true) l ->
  (forall x, g x = true -> f x = false) ->
  filter f l = [].
Proof.
  intros F H; induction F; cbn; auto. rewrite (H _ H0); auto.
Qed.


Section TxRunFacts.

Variables (k : string) (z : Z) (ip : string).

Lemma LoopRun_no_clone v records res evs :
  LoopRun k z v ip records res evs -> filter is_clone evs = [].
Proof.
  intros L. apply filter_none with (g := is_change).
  - exact (LoopRun_changes L).
  - intros [] E; cbn in *; congruence.
Qed.

Lemma LoopRun_no_activate v records res evs :
  LoopRun k z v ip records res evs -> filter is_activate evs = [].
Proof.
  intros L. apply filter_none with (g := is_change).
  - exact (LoopRun_changes L).
  - intros [] E; cbn in *; congruence.
Qed.

Lemma LoopRun_no_version_delete v records res evs :
  LoopRun k z v ip records res evs -> filter is_version_delete evs = [].
Proof.
  intros L. apply filter_none with (g := is_change).
  - exact (LoopRun_changes L).
  - intros [] E; cbn in *; congruence.
Qed.

Lemma filter_nil_not_in A (f : A -> bool) l x :
  filter f l = [] -> In x l -> f x = false.
Proof.
  intros F I. destruct (f x) eqn:E; auto.
  assert (In x (filter f l)) as X by (apply filter_In; auto).
  rewrite F in X; destruct X.
Qed.

(** The clone call comes first and is the only one. *)
Lemma TxRun_clone res evs outs :
  TxRun k z ip res evs outs ->
  (exists cr, hd_error evs = Some (EvVersionNew k z cr)) /\
  List.length (filter is_clone evs) = 1%nat.
Proof.
  intros T; inversion T; subst; cbn; (split; [eauto|]); auto;
    rewrite filter_app, (LoopRun_no_clone H); reflexivity.
Qed.

(** An activation call is the last call of the run; before it come the
    clone, the listing of the clone, and one successful delete+add pair
    for each differing record of that listing, in order. *)
Lemma TxRun_activation res evs outs ev :
  TxRun k z ip res evs outs ->
  In ev evs -> is_activate ev = true ->
  exists v records' pairs sr,
    ev = EvVersionSet k z v sr /\
    evs = EvVersionNew k z (Reply v) :: EvRecordList k z v (Reply records')
            :: List.concat pairs ++ [ev] /\
    Forall2 (replaced k z v ip) (filter (differs ip) records') pairs /\
    List.length (filter is_activate evs) = 1%nat /\
    res = Some (activation_error ip sr).
Proof.
  intros T I A; inversion T; subst; cbn in I.
  - destruct I as [<-|[]]; discriminate.
  - destruct I as [<-|[<-|[<-|[]]]]; discriminate.
  - destruct I as [<-|[<-|I]]; try discriminate.
    apply in_app_or in I; destruct I as [I|[<-|[]]]; try discriminate.
    rewrite (filter_nil_not_in _ _ _ (LoopRun_no_activate H) I) in A; discriminate.
  - destruct I as [<-|[<-|I]]; try discriminate.
    apply in_app_or in I; destruct I as [I|[<-|[]]].
    + rewrite (filter_nil_not_in _ _ _ (LoopRun_no_activate H) I) in A; discriminate.
    + destruct (LoopRun_done_pairs H) as (pairs & F & E).
      exists v, records, pairs, sr; rewrite <- E; repeat split; auto.
      cbn; rewrite filter_app, (LoopRun_no_activate H); reflexivity.
Qed.

(** A run without an activation call has met a failed call or an
    identifier that does not parse. *)
Lemma TxRun_progress res evs outs :
  TxRun k z ip res evs outs ->
  Exists (fun ev => is_activate ev = true) evs \/
  Exists (fun ev => call_failed ev = true) evs \/
  exists num kind, res = Some (NumError "ParseInt" num kind).
Proof.
  intros T; inversion T; subst.
  - right; left. constructor. reflexivity.
  - right; left. apply Exists_cons_tl. constructor. reflexivity.
  - right. destruct (LoopRun_error_cause H) as [X|(num & kind & ->)]; eauto.
    left. do 2 apply Exists_cons_tl. apply Exists_app; auto.
  - left. do 2 apply Exists_cons_tl. apply Exists_app; right.
    constructor. reflexivity.
Qed.

(** A failed delete or add is followed by the deletion of the cloned
    version and by nothing else; its error is the one returned. *)
Lemma TxRun_change_failure res evs outs ev err :
  TxRun k z ip res evs outs ->
  In ev evs -> change_failure ev err ->
  res = Some err /\
  exists v dr pre,
    hd_error evs = Some (EvVersionNew k z (Reply v)) /\
    evs = pre ++ [ev; EvVersionDelete k z v dr] /\
    List.length (filter is_version_delete evs) = 1%nat /\
    filter is_activate evs = [] /\
    outs = rollback_log err dr.
Proof.
  intros T I F; inversion T; subst; cbn in I.
  - destruct I as [<-|[]]; inversion F.
  - destruct I as [<-|[<-|[<-|[]]]]; inversion F.
  - destruct I as [<-|[<-|I]]; try solve [inversion F].
    apply in_app_or in I; destruct I as [I|[<-|[]]]; try solve [inversion F].
    destruct (LoopRun_failure H I F) as (E & pre & ->). inversion E; subst.
    split; auto. exists v, dr, (EvVersionNew k z (Reply v)
                                :: EvRecordList k z v (Reply records) :: pre).
    split; [reflexivity|].
    split; [cbn; rewrite <- app_assoc; reflexivity|].
    split; [cbn; rewrite filter_app, (LoopRun_no_version_delete H); reflexivity|].
    split; [cbn; rewrite filter_app, (LoopRun_no_activate H); reflexivity|].
    reflexivity.
  - destruct I as [<-|[<-|I]]; try solve [inversion F].
    apply in_app_or in I; destruct I as [I|[<-|[]]]; try solve [inversion F].
    destruct (LoopRun_failure H I F) as (E & _); discriminate.
Qed.

(** Once a change is detected the transaction never returns nil. *)
Lemma TxRun_error res evs outs :
  TxRun k z ip res evs outs -> exists err, res = Some err.
Proof. intros T; inversion T; eauto. Qed.

(** After an activation call that failed, no deletion of the clone. *)
Lemma TxRun_failed_activation res evs outs k' z' v' sr :
  TxRun k z ip res evs outs ->
  In (EvVersionSet k' z' v' sr) evs ->
  filter is_version_delete evs = [].
Proof.
  intros T I; inversion T; subst; cbn in I.
  - destruct I as [E|[]]; discriminate.
  - destruct I as [E|[E|[E|[]]]]; discriminate.
  - destruct I as [E|[E|I]]; try discriminate.
    apply in_app_or in I; destruct I as [I|[E|[]]]; try discriminate.
    pose proof (filter_nil_not_in _ _ _ (LoopRun_no_activate H) I); discriminate.
  - cbn. rewrite filter_app, (LoopRun_no_version_delete H). reflexivity.
Qed.

(** Every record added has the type of a differing record, "A", and the
    resolved IP as value. *)
Lemma TxRun_added res evs outs k' z' v' rec ar :
  TxRun k z ip res evs outs ->
  In (EvRecordAdd k' z' v' rec ar) evs ->
  NewType rec = "A"%string /\ NewValue rec = ip.
Proof.
  intros T I; inversion T; subst; cbn in I.
  - destruct I as [E|[]]; discriminate.
  - destruct I as [E|[E|[E|[]]]]; discriminate.
  - destruct I as [E|[E|I]]; try discriminate.
    apply in_app_or in I; destruct I as [I|[E|[]]]; try discriminate.
    destruct (LoopRun_events _ H I) as (r & id & _ & D & _ & [(dr0 & E)|(ar0 & E)]);
      inversion E; subst. apply differs_true_iff in D; cbn; tauto.
  - destruct I as [E|[E|I]]; try discriminate.
    apply in_app_or in I; destruct I as [I|[E|[]]]; try discriminate.
    destruct (LoopRun_events _ H I) as (r & id & _ & D & _ & [(dr0 & E)|(ar0 & E)]);
      inversion E; subst. apply differs_true_iff in D; cbn; tauto.
Qed.

(** A run without an activation call has met a failed call, or a
    differing record of the listing of the clone whose identifier does not
    parse, and returns the error of [ParseInt]. *)
Lemma TxRun_no_activation_source res evs outs :
  TxRun k z ip res evs outs ->
  Exists (fun ev => is_activate ev = true) evs \/
  Exists (fun ev => call_failed ev = true) evs \/
  exists v records' r err,
    In (EvRecordList k z v (Reply records')) evs /\
    In r records' /\ Type_ r = "A"%string /\ Value r <> ip /\
    strconv.ParseInt (Id r) = Fail err /\ res = Some err.
Proof.
  intros T; inversion T; subst.
  - right; left. constructor. reflexivity.
  - right; left. apply Exists_cons_tl. constructor. reflexivity.
  - right. destruct (LoopRun_error_source H) as [X|(r & I & D & PI)].
    + left. do 2 apply Exists_cons_tl. apply Exists_app; auto.
    + right. apply differs_true_iff in D. destruct D as (Ty & Va).
      exists v, records, r, err. repeat split; auto. right; left; reflexivity.
  - left. do 2 apply Exists_cons_tl. apply Exists_app; right.
    constructor. reflexivity.
Qed.

(** When every call made succeeded and every differing record listed has
    an identifier that parses, the run is the complete update: the clone,
    the listing, one pair per differing record, and the activation, which
    answered true. *)
Lemma TxRun_complete res evs outs :
  TxRun k z ip res evs outs ->
  Forall (fun ev => call_failed ev = false) evs ->
  (forall k' z' v' records' r,
      In (EvRecordList k' z' v' (Reply records')) evs ->
      In r records' -> Type_ r = "A"%string -> Value r <> ip ->
      exists id, strconv.ParseInt (Id r) = Ok id) ->
  exists v records' pairs,
    evs = EvVersionNew k z (Reply v) :: EvRecordList k z v (Reply records')
            :: List.concat pairs ++ [EvVersionSet k z v (Reply true)] /\
    Forall2 (replaced k z v ip) (filter (differs ip) records') pairs /\
    res = Some (Errorf ("ip changed to " ++ ip)%string).
Proof.
  intros T F PA.
  destruct (TxRun_no_activation_source T)
    as [A|[X|(v & records' & r & err & I & Ir & Ty & Va & PI & _)]].
  - apply Exists_exists in A. destruct A as (ev & I & A).
    destruct (TxRun_activation _ T I A)
      as (v & records' & pairs & sr & -> & Sh & F2 & _ & Res).
    rewrite Forall_forall in F. specialize (F _ I). cbn in F.
    destruct sr as [[|]|msg]; try discriminate.
    exists v, records', pairs. auto.
  - exfalso. apply Exists_exists in X. destruct X as (ev & I & X).
    rewrite Forall_forall in F. rewrite (F _ I) in X. discriminate.
  - exfalso. destruct (PA _ _ _ _ _ I Ir Ty Va) as (id & PO). congruence.
Qed.

End TxRunFacts.

(** * The claims about the zone update transaction *)

Section Transaction.

Variable W : Type.
Variable P : Platform W.

(** C1.  When some "A" record of the active version differs from the
    resolved IP, the transaction makes the clone call first and only once;
    an activation call, when there is one, is the last call and the only
    activation, and what precedes it is the clone, the listing of the
    clone and exactly one successful delete+add pair per differing "A"
    record of that listing, in order.  The calls are issued: when no call
    made fails and every differing "A" record listed has an identifier
    that parses, the calls are exactly the clone, the listing of the
    clone, one delete+add pair per differing "A" record of that listing
    and the activation of the clone, and the run returns the error
    "ip changed to <ip>".  A run without an activation call has a failed
    call, or returns the error of [ParseInt] on the identifier of a
    differing "A" record of the listing of the clone. *)
Theorem drift_clone_pairs_then_activation api z ip records st :
  (exists r, In r records /\ Type_ r = "A"%string /\ Value r <> ip) ->
  exists evs,
    trace (snd (checkIP_transaction P api z ip records st)) = trace st ++ evs /\
    (exists cr, hd_error evs = Some (EvVersionNew (key api) z cr)) /\
    List.length (filter is_clone evs) = 1%nat /\
    (forall ev, In ev evs -> is_activate ev = true ->
       exists v records' pairs sr,
         ev = EvVersionSet (key api) z v sr /\
         evs = EvVersionNew (key api) z (Reply v)
                 :: EvRecordList (key api) z v (Reply records')
                 :: List.concat pairs ++ [ev] /\
         Forall2 (replaced (key api) z v ip) (filter (differs ip) records') pairs /\
         List.length (filter is_activate evs) = 1%nat) /\
    (Forall (fun ev => call_failed ev = false) evs ->
     (forall k' z' v' records' r,
         In (EvRecordList k' z' v' (Reply records')) evs ->
         In r records' -> Type_ r = "A"%string -> Value r <> ip ->
         exists id, strconv.ParseInt (Id r) = Ok id) ->
     exists v records' pairs,
       evs = EvVersionNew (key api) z (Reply v)
               :: EvRecordList (key api) z v (Reply records')
               :: List.concat pairs ++ [EvVersionSet (key api) z v (Reply true)] /\
       Forall2 (replaced (key api) z v ip) (filter (differs ip) records') pairs /\
       fst (checkIP_transaction P api z ip records st)
       = Some (Errorf ("ip changed to " ++ ip)%string)) /\
    (Exists (fun ev => is_activate ev = true) evs \/
     Exists (fun ev => call_failed ev = true) evs \/
     exists v records' r kind,
       In (EvRecordList (key api) z v (Reply records')) evs /\
       In r records' /\ Type_ r = "A"%string /\ Value r <> ip /\
       strconv.ParseInt (Id r) = Fail (NumError "ParseInt" (Id r) kind) /\
       fst (checkIP_transaction P api z ip records st)
       = Some (NumError "ParseInt" (Id r) kind)).
Proof.
  intros C; apply changed_true_iff in C.
  destruct (checkIP_transaction P api z ip records st) as [res st'] eqn:R.
  destruct (transaction_run P api z ip records st C R) as (evs & outs0 & outs & (T & _) & X).
  exists evs; cbn [fst snd]. split; [exact T|].
  destruct (TxRun_clone X) as (Hd & N). split; [exact Hd|]. split; [exact N|].
  split; [|split].
  - intros ev I A.
    destruct (TxRun_activation ev X I A) as (v & records' & pairs & sr & E1 & E2 & F & L & _).
    exists v, records', pairs, sr; auto.
  - intros F PA. exact (TxRun_complete X F PA).
  - destruct (TxRun_no_activation_source X)
      as [A|[F|(v & records' & r & err & I & Ir & Ty & Va & PI & E)]].
    + left; exact A.
    + right; left; exact F.
    + right; right. destruct (ParseInt_Fail _ PI) as (kind & K). subst err.
      exists v, records', r, kind. auto 10.
Qed.

(** C2.  When a record-delete or record-add call fails during the update
    (a fault, or a deletion count below one), the error returned is the
    one of that call; the call is followed by one delete-version call for
    the version the clone call returned, which is the only delete-version
    call and the last call of the run; and when that delete-version call
    fails too, a line is printed and the returned error is unchanged. *)
Theorem change_failure_rolls_back_once api z ip records st :
  (exists r, In r records /\ Type_ r = "A"%string /\ Value r <> ip) ->
  exists evs,
    trace (snd (checkIP_transaction P api z ip records st)) = trace st ++ evs /\
    forall ev err,
      In ev evs -> change_failure ev err ->
      fst (checkIP_transaction P api z ip records st) = Some err /\
      exists v dr pre,
        hd_error evs = Some (EvVersionNew (key api) z (Reply v)) /\
        evs = pre ++ [ev; EvVersionDelete (key api) z v dr] /\
        List.length (filter is_version_delete evs) = 1%nat /\
        (flag_failed dr = true ->
         In (Println [PStr "zone version deletion failed: %s"; PErr err])
            (stdout (snd (checkIP_transaction P api z ip records st)))).
Proof.
  intros C; apply changed_true_iff in C.
  destruct (checkIP_transaction P api z ip records st) as [res st'] eqn:R.
  destruct (transaction_run P api z ip records st C R) as (evs & outs0 & outs & (T & O & _) & X).
  exists evs; cbn [fst snd]. split; [exact T|].
  intros ev err I F.
  destruct (TxRun_change_failure X I F) as (E & v & dr & pre & Hd & Sh & N & _ & L).
  split; [exact E|]. exists v, dr, pre.
  split; [exact Hd|]. split; [exact Sh|]. split; [exact N|].
  intros D. rewrite O, L. unfold rollback_log; rewrite D.
  do 2 (apply in_or_app; right). cbn; auto.
Qed.

(** C3.  When no "A" record of the listing differs from the resolved IP
    (in particular when there is no "A" record), the transaction returns
    nil after printing "unchanged ip", and makes no call at all: no clone,
    record-delete, record-add or activation. *)
Theorem no_drift_no_call api z ip records st :
  (forall r, In r records -> Type_ r = "A"%string -> Value r = ip) ->
  fst (checkIP_transaction P api z ip records st) = None /\
  trace (snd (checkIP_transaction P api z ip records st)) = trace st /\
  Forall (fun ev => mutating ev = false)
    (skipn (List.length (trace st))
       (trace (snd (checkIP_transaction P api z ip records st)))) /\
  stdout (snd (checkIP_transaction P api z ip records st))
    = stdout st ++ [Println [PStr "unchanged ip"]] /\
  stderr (snd (checkIP_transaction P api z ip records st)) = stderr st /\
  world (snd (checkIP_transaction P api z ip records st)) = world st.
Proof.
  intros C; apply changed_false_iff in C.
  rewrite (transaction_unchanged P api z ip records st C); cbn [fst snd trace stdout stderr world].
  repeat split; auto. rewrite skipn_all; constructor.
Qed.

(** C6.  A record-delete call that completes with a count below one makes
    the transaction return the error "no record deleted"; the next call
    is the deletion of the cloned version and it is the last one, so the
    add call for that record, the remaining changes and the activation are
    not issued. *)
Theorem nothing_deleted_aborts_and_rolls_back api z ip records st :
  (exists r, In r records /\ Type_ r = "A"%string /\ Value r <> ip) ->
  exists evs,
    trace (snd (checkIP_transaction P api z ip records st)) = trace st ++ evs /\
    forall k' z' v' id n,
      In (EvRecordDelete k' z' v' id (Reply n)) evs -> n < 1 ->
      fst (checkIP_transaction P api z ip records st)
        = Some (Errorf "no record deleted") /\
      exists v dr pre,
        hd_error evs = Some (EvVersionNew (key api) z (Reply v)) /\
        evs = pre ++ [EvRecordDelete k' z' v' id (Reply n);
                      EvVersionDelete (key api) z v dr] /\
        filter is_activate evs = [].
Proof.
  intros C; apply changed_true_iff in C.
  destruct (checkIP_transaction P api z ip records st) as [res st'] eqn:R.
  destruct (transaction_run P api z ip records st C R) as (evs & outs0 & outs & (T & _) & X).
  exists evs; cbn [fst snd]. split; [exact T|].
  intros k' z' v' id n I N.
  destruct (TxRun_change_failure X I (CF_delete_none k' z' v' id N))
    as (E & v & dr & pre & Hd & Sh & _ & A & _).
  split; [exact E|]. exists v, dr, pre; auto.
Qed.

(** Whatever the activation call answers, no deletion of the clone is
    attempted in a run that reached it. *)
Lemma activation_excludes_version_delete api z ip records st :
  changed ip records = true ->
  exists evs,
    trace (snd (checkIP_transaction P api z ip records st)) = trace st ++ evs /\
    forall k' z' v' sr,
      In (EvVersionSet k' z' v' sr) evs -> filter is_version_delete evs = [].
Proof.
  intros C.
  destruct (checkIP_transaction P api z ip records st) as [res st'] eqn:R.
  destruct (transaction_run P api z ip records st C R) as (evs & outs0 & outs & (T & _) & X).
  exists evs; cbn [snd]. split; [exact T|].
  intros k' z' v' sr I. exact (TxRun_failed_activation _ _ _ _ X I).
Qed.

End Transaction.

(** * The claims about the update of the records *)

Section Update.

Variable W : Type.
Variable P : Platform W.

(** The loop over a listing [pre ++ rest] that gets through [pre]
    continues with [rest]. *)
Lemma updateRecords_loop_app api z v ip pre rest :
  forall st st1,
    updateRecords_loop P api z v ip pre st = (None, st1) ->
    updateRecords_loop P api z v ip (pre ++ rest) st
    = updateRecords_loop P api z v ip rest st1.
Proof.
  induction pre as [|r pre IH]; intros st st1; cbn [app updateRecords_loop].
  - intros H; apply ret_inv in H; destruct H as [_ ->]; reflexivity.
  - destruct (negb (Type_ r =? "A")%string || (Value r =? ip)%string);
      [apply IH|].
    unfold bind.
    destruct (print _ st) as [u s0].
    destruct (DeleteRecord P api z v (Id (with_Value r ip)) s0) as [[n|e] s1];
      [|discriminate].
    destruct (n <? 1); [discriminate|].
    destruct (AddRecord P api z v (with_Value r ip) s1) as [[c|e] s2];
      [apply IH|discriminate].
Qed.

(** [DeleteRecord] on an identifier that does not parse returns the parse
    error and leaves the state as it is: no call is made. *)
Lemma DeleteRecord_unparsable api z v id err st :
  strconv.ParseInt id = Fail err ->
  DeleteRecord P api z v id st = (Fail err, st).
Proof. intros H; unfold DeleteRecord; rewrite H; reflexivity. Qed.

(** C4.  [updateRecords] first lists the records of the version it is
    given.  When the listing fails that is its only call and its error.
    Otherwise every later call deletes, or adds the replacement of, an "A"
    record of that listing whose value differs from the IP, by its parsed
    identifier; the calls are exactly one successful delete+add pair for
    each differing "A" record in the order of the listing, up to the end
    of the listing (and nil is returned) or up to the first such record
    whose identifier does not parse, whose delete call fails or deletes
    nothing, or whose add call fails (and that error is returned).  So,
    when no call fails and the identifiers parse, every differing "A"
    record is deleted and re-added with the IP, its name, type and TTL
    kept ([NewRecord] has no identifier field), and nil is returned. *)
Theorem updateRecords_replaces_differing_A_records api recs0 z v ip st :
  exists lr evs,
    trace (snd (updateRecords P api recs0 z v ip st))
    = trace st ++ EvRecordList (key api) z v lr :: evs /\
    (forall msg, lr = Fault msg ->
       evs = [] /\
       fst (updateRecords P api recs0 z v ip st) = Some (External msg)) /\
    (forall records', lr = Reply records' ->
      (forall ev, In ev evs ->
         exists r id,
           In r records' /\ Type_ r = "A"%string /\ Value r <> ip /\
           strconv.ParseInt (Id r) = Ok id /\
           ((exists dr, ev = EvRecordDelete (key api) z v id dr) \/
            (exists ar,
                ev = EvRecordAdd (key api) z v
                       {| NewType := Type_ r; NewName := Name r;
                          NewValue := ip; NewTTL := TTL r |} ar))) /\
      (exists done todo pairs tail,
          filter (differs ip) records' = done ++ todo /\
          Forall2 (replaced (key api) z v ip) done pairs /\
          evs = List.concat pairs ++ tail /\
          ((todo = [] /\ tail = [] /\
            fst (updateRecords P api recs0 z v ip st) = None) \/
           (exists r rest err,
               todo = r :: rest /\
               fst (updateRecords P api recs0 z v ip st) = Some err /\
               stops_at (key api) z v ip r err tail))) /\
      (fst (updateRecords P api recs0 z v ip st) = None ->
       exists pairs,
         Forall2 (replaced (key api) z v ip) (filter (differs ip) records') pairs /\
         evs = List.concat pairs) /\
      (Forall (fun ev => call_failed ev = false) evs ->
       (forall r, In r records' -> Type_ r = "A"%string -> Value r <> ip ->
                  exists id, strconv.ParseInt (Id r) = Ok id) ->
       fst (updateRecords P api recs0 z v ip st) = None /\
       exists pairs,
         Forall2 (replaced (key api) z v ip) (filter (differs ip) records') pairs /\
         evs = List.concat pairs)).
Proof.
  destruct (updateRecords P api recs0 z v ip st) as [res st'] eqn:R.
  destruct (updateRecords_run P api recs0 z v ip st R)
    as [(msg & -> & T & _)|(records & uevs & outs & (T & _) & L)]; cbn [fst snd].
  - exists (Fault msg), []. split; [exact T|]. split.
    + intros msg' E; inversion E; subst; auto.
    + intros records' E; discriminate.
  - exists (Reply records), uevs. split; [exact T|]. split.
    + intros msg E; discriminate.
    + intros records' E; inversion E; subst records'; clear E.
      split; [|split; [|split]].
      * intros ev I.
        destruct (LoopRun_events ev L I) as (r & id & I0 & D & PI & X).
        apply differs_true_iff in D. exists r, id; tauto.
      * exact (LoopRun_shape L).
      * intros ->. exact (LoopRun_done_pairs L).
      * intros F PA.
        destruct (LoopRun_shape L)
          as (done & todo & pairs & tail & Fi & F2 & E & [(-> & -> & ->)|(r & rest & err & -> & -> & S)]).
        -- rewrite !app_nil_r in *. split; [reflexivity|]. exists pairs.
           rewrite Fi; auto.
        -- exfalso. subst uevs. apply Forall_app in F. destruct F as (_ & F).
           pose proof (stops_at_unparsable S F) as PI.
           assert (In r (filter (differs ip) records)) as I
               by (rewrite Fi; apply in_or_app; right; left; reflexivity).
           apply filter_In in I. destruct I as (I & D).
           apply differs_true_iff in D. destruct D as (Ty & Va).
           destruct (PA r I Ty Va) as (id & PO). congruence.
Qed.

(** C5.  When the loop reaches a differing record whose identifier does
    not parse as a 64-bit integer, [DeleteRecord] returns the parse error,
    a [NumError] of [ParseInt] naming the identifier, without making a
    call; the loop returns that error at once: no call is made for this
    record nor for any record after it. *)
Theorem unparsable_identifier_stops_the_update api z v ip pre r post err st st1 :
  Type_ r = "A"%string -> Value r <> ip ->
  strconv.ParseInt (Id r) = Fail err ->
  updateRecords_loop P api z v ip pre st = (None, st1) ->
  (forall s, DeleteRecord P api z v (Id r) s = (Fail err, s)) /\
  (exists kind, err = NumError "ParseInt" (Id r) kind) /\
  fst (updateRecords_loop P api z v ip (pre ++ r :: post) st) = Some err /\
  trace (snd (updateRecords_loop P api z v ip (pre ++ r :: post) st)) = trace st1 /\
  world (snd (updateRecords_loop P api z v ip (pre ++ r :: post) st)) = world st1.
Proof.
  intros T V PI H.
  split; [intros s; apply DeleteRecord_unparsable; exact PI|].
  split; [exact (ParseInt_Fail _ PI)|].
  rewrite (updateRecords_loop_app api z v ip pre (r :: post) st H).
  cbn [updateRecords_loop]. rewrite skip_test_differs.
  assert (differs ip r = true) as -> by (apply differs_true_iff; auto).
  cbn [negb]. unfold bind, print. cbn [with_Value Id].
  rewrite (DeleteRecord_unparsable api z v _ _ PI). cbn. auto.
Qed.

End Update.

(** * The whole process *)

Section Process.

Variable W : Type.
Variable P : Platform W.

(** [getMyIP] makes one HTTP call, and an address it returns has passed
    [reIP.MatchString]. *)
Lemma getMyIP_inv st r st' :
  getMyIP P st = (r, st') ->
  exists hr,
    extends st st' [EvHttpGet "https://api.ipify.org?format=json" hr] [] /\
    forall ip, r = Ok ip -> regexp.MatchString reIP ip = true.
Proof.
  unfold getMyIP; intros H. repeat run_step. exists rp; split; [|intros ip E].
  - destruct rp as [rsp|msg]; cbn [of_reply] in *; repeat run_step; auto.
    destruct (negb (StatusCode rsp =? 200)); repeat run_step; auto.
    destruct (of_reply (Body rsp)); repeat run_step; auto.
    destruct (of_reply (json_Unmarshal P a)); repeat run_step; auto.
    destruct (negb (regexp.MatchString reIP a0)); repeat run_step; auto.
  - destruct rp as [rsp|msg]; cbn [of_reply] in *; repeat run_step; try discriminate.
    destruct (negb (StatusCode rsp =? 200)); repeat run_step; try discriminate.
    destruct (of_reply (Body rsp)); repeat run_step; try discriminate.
    destruct (of_reply (json_Unmarshal P a)); repeat run_step; try discriminate.
    destruct (regexp.MatchString reIP a0) eqn:Re; cbn [negb] in *;
      repeat run_step; try discriminate.
    inversion E; subst; exact Re.
Qed.

(** The three ways [checkIP] ends: [flag.Usage] exits; an error is
    returned before the transaction, after read-only calls at most; or the
    transaction runs on a validated address and on the records of the
    active version. *)
Lemma checkIP_inv args st o st' :
  checkIP P args st = (o, st') ->
  ((forall pos, flag.Parse args <> flag.Args pos) /\
   o = Exited 1 /\ trace st' = trace st /\
   stdout st' = stdout st ++ [Println [PStr usage_text]] /\
   (List.length (stderr st') <= List.length (stderr st) + 1)%nat) \/
  (exists pos err evs outs,
      flag.Parse args = flag.Args pos /\
      o = Returned (Some err) /\ extends st st' evs outs /\
      Forall (fun ev => mutating ev = false) evs) \/
  (exists pos hr ip zoneId records st1 res,
      flag.Parse args = flag.Args pos /\ (2 <= List.length pos)%nat /\
      regexp.MatchString reIP ip = true /\
      extends st st1
        [EvHttpGet "https://api.ipify.org?format=json" hr;
         EvDomainInfo (List.nth 0 pos "") (List.nth 1 pos "") (Reply zoneId);
         EvRecordList (List.nth 0 pos "") zoneId 0 (Reply records)]
        [Println [PStr ip]; Println [PStr "zoneid"; PInt zoneId]] /\
      checkIP_transaction P {| key := List.nth 0 pos "" |} zoneId ip records st1
        = (res, st') /\
      o = Returned res).
Proof.
  unfold checkIP; intros H.
  destruct (flag.Parse args) as [pos| |msg] eqn:FP.
  - right.
    destruct (Z.of_nat (List.length pos) <? 1) eqn:N1; [run_step; early pos|].
    destruct (Z.of_nat (List.length pos) <? 2) eqn:N2; [run_step; early pos|].
    apply Z.ltb_ge in N2.
    repeat run_step.
    match goal with
    | G : getMyIP _ _ = _ |- _ =>
        apply getMyIP_inv in G; destruct G as (hr & X0 & Re)
    end.
    match goal with
    | G : match ?a with Ok _ => _ | Fail _ => _ end _ = _ |- _ =>
        destruct a as [ip|err]
    end; [|run_step; early pos].
    specialize (Re ip eq_refl). repeat run_step.
    unfold NewGandiAPI in *.
    destruct (xmlrpc_NewClient P _); [run_step; early pos|].
    unfold GetZoneId in *; cbn [key] in *. repeat run_step.
    case_reply zoneId; [|run_step; early pos].
    unfold GetZoneRecords in *; cbn [key] in *. repeat run_step.
    case_reply records; [|run_step; early pos].
    repeat run_step. chain. right.
    exists pos, hr, ip, zoneId, records; do 2 eexists.
    split; [reflexivity|]. split; [clear - N2; lia|]. split; [exact Re|].
    split; [eassumption|]. split; [eassumption|reflexivity].
  - left. unfold Usage in H. repeat run_step.
    destruct R as (T & O & E). rewrite E, app_nil_r in *.
    repeat split; auto; try congruence. lia.
  - left. unfold Usage, eprint in H. repeat run_step.
    inversion R; subst; clear R.
    destruct R1 as (T & O & E). rewrite E. cbn in *. rewrite app_nil_r in *.
    repeat split; auto; try congruence. rewrite length_app; cbn; lia.
Qed.

(** Every record sent to [domain.zone.record.add] has type "A" and a
    value that [reIP.MatchString] accepted. *)
Lemma added_records_passed_reIP args w k z v rec ar :
  In (EvRecordAdd k z v rec ar) (trace (snd (checkIP P args (start w)))) ->
  NewType rec = "A"%string /\ regexp.MatchString reIP (NewValue rec) = true.
Proof.
  destruct (checkIP P args (start w)) as [o st'] eqn:R; cbn [snd].
  apply checkIP_inv in R.
  destruct R as [(_ & _ & T & _)|[(pos & err & evs & outs & _ & _ & (T & _) & F)
                 |(pos & hr & ip & zoneId & records & st1 & res & _ & _ & Re & (T1 & _) & R & _)]];
    cbn [start trace app] in *; intros I.
  - rewrite T in I; destruct I.
  - rewrite T in I. rewrite Forall_forall in F. specialize (F _ I); discriminate.
  - destruct (changed ip records) eqn:C.
    + destruct (transaction_run _ _ _ _ _ _ C R) as (evs & _ & outs & (T & _) & X).
      rewrite T, T1 in I; cbn in I.
      destruct I as [E|[E|[E|I]]]; try discriminate.
      destruct (TxRun_added _ _ _ _ _ X I) as (Ty & Va). rewrite Va; auto.
    + rewrite (transaction_unchanged _ _ _ _ _ _ C) in R. inversion R; subst; cbn in I.
      rewrite T1 in I; cbn in I. destruct I as [E|[E|[E|[]]]]; discriminate.
Qed.

(** C9.  The exit status is 0 or 1.  It is 0 only when [checkIP] returned
    nil, which it does only after listing the active version and finding
    no "A" record that differs from the IP, having printed "unchanged ip"
    and written nothing on standard error.  Whenever [checkIP] returns an
    error the status is 1 and standard error receives exactly one write,
    the line "err: ..." for that error; a successful activation makes
    [checkIP] return the error "ip changed to ...", hence status 1.  When
    [flag.Usage] ends the process the status is 1 too, with at most one
    line on standard error. *)
Theorem exit_status_zero_only_when_unchanged args w :
  (fst (main P args (start w)) = 0 \/ fst (main P args (start w)) = 1) /\
  (fst (main P args (start w)) = 0 ->
   fst (checkIP P args (start w)) = Returned None /\
   stderr (snd (main P args (start w))) = [] /\
   exists k domain hr zoneId records ip,
     trace (snd (main P args (start w)))
     = [EvHttpGet "https://api.ipify.org?format=json" hr;
        EvDomainInfo k domain (Reply zoneId);
        EvRecordList k zoneId 0 (Reply records)] /\
     (forall r, In r records -> Type_ r = "A"%string -> Value r = ip) /\
     stdout (snd (main P args (start w)))
     = [Println [PStr ip]; Println [PStr "zoneid"; PInt zoneId];
        Println [PStr "unchanged ip"]]) /\
  (forall err,
      fst (checkIP P args (start w)) = Returned (Some err) ->
      fst (main P args (start w)) = 1 /\
      stderr (snd (main P args (start w)))
      = [Fprintf ("err: %s" ++ LF)%string [PErr err]]) /\
  (forall k zoneId v,
      In (EvVersionSet k zoneId v (Reply true)) (trace (snd (main P args (start w)))) ->
      exists ip,
        fst (checkIP P args (start w))
        = Returned (Some (Errorf ("ip changed to " ++ ip)%string))) /\
  (forall code,
      fst (checkIP P args (start w)) = Exited code ->
      fst (main P args (start w)) = 1 /\
      (List.length (stderr (snd (main P args (start w)))) <= 1)%nat).
Proof.
  unfold main, bind.
  destruct (checkIP P args (start w)) as [o st'] eqn:R; cbn [fst snd].
  apply checkIP_inv in R.
  destruct R as [(_ & -> & T & _ & E)|[(pos & err & evs & outs & _ & -> & (T & _ & E) & F)
                 |(pos & hr & ip & zoneId & records & st1 & res & _ & _ & _ & (T1 & O1 & E1) & R & ->)]];
    cbn [start trace stdout stderr world app List.length Nat.add] in *.
  - unfold ret; cbn [fst snd]. split; [auto|]. split; [discriminate|].
    split; [discriminate|]. split.
    + intros k zoneId v I. rewrite T in I; destruct I.
    + intros code H; split; [reflexivity|exact E].
  - unfold eprint, ret; cbn [fst snd stderr trace]. rewrite E.
    split; [auto|]. split; [discriminate|]. split.
    + intros err0 H; inversion H; subst; auto.
    + split; [|discriminate].
      intros k zoneId v I. rewrite T in I. rewrite Forall_forall in F.
      specialize (F _ I); discriminate.
  - destruct (changed ip records) eqn:C.
    + destruct (transaction_run _ _ _ _ _ _ C R) as (evs & outs0 & outs & (T & O & E) & X).
      destruct (TxRun_error X) as (err & ->).
      unfold eprint, ret; cbn [fst snd stderr trace]. rewrite E, E1.
      split; [auto|]. split; [discriminate|]. split.
      * intros err0 H; inversion H; subst; auto.
      * split; [|discriminate].
        intros k zoneId0 v I. rewrite T, T1 in I; cbn [app] in I.
        destruct I as [I|[I|[I|I]]]; try discriminate.
        destruct (TxRun_activation _ X I eq_refl)
          as (v0 & records' & pairs & sr & Ev & _ & _ & _ & Res).
        inversion Ev; subst sr. exists ip. rewrite Res; reflexivity.
    + rewrite (transaction_unchanged _ _ _ _ _ _ C) in R. inversion R; subst.
      unfold ret; cbn [fst snd stderr trace stdout].
      rewrite T1, O1, E1. split; [auto|]. split.
      * intros _. split; [reflexivity|]. split; [reflexivity|].
        exists (List.nth 0 pos ""%string), (List.nth 1 pos ""%string), hr, zoneId, records, ip.
        split; [reflexivity|]. split; [apply changed_false_iff; exact C|reflexivity].
      * split; [discriminate|]. split; [|discriminate].
        intros k zoneId0 v [I|[I|[I|[]]]]; discriminate.
Qed.

(** C10 (amended).  When fewer than two positional arguments are left by
    [flag.Parse], the process exits with status 1 after a single write on
    standard error, the line "err: missing api-key argument" or "err:
    missing domain argument"; it makes no call and prints nothing on
    standard output: the usage message is not printed. *)
Theorem missing_argument_is_an_error_without_usage args pos w :
  flag.Parse args = flag.Args pos ->
  (List.length pos < 2)%nat ->
  fst (main P args (start w)) = 1 /\
  trace (snd (main P args (start w))) = [] /\
  stdout (snd (main P args (start w))) = [] /\
  stderr (snd (main P args (start w)))
  = [Fprintf ("err: %s" ++ LF)%string
       [PErr (Errorf match pos with
                     | [] => "missing api-key argument"
                     | _ => "missing domain argument"
                     end)]] /\
  world (snd (main P args (start w))) = w.
Proof.
  intros FP L. unfold main, checkIP, bind. rewrite FP.
  destruct pos as [|a [|b pos]]; cbn in *; [auto 6 | auto 6 | lia].
Qed.

End Process.

(** * Runs on the scripted platform *)

Module Runs.

Import Sample.

(** The scenarios of the spec. *)
Example unmoved_run :
  main (platform unmoved) argv (start tt)
  = (0, {| world := tt;
           trace := [EvHttpGet "https://api.ipify.org?format=json"
                       (Reply {| StatusCode := 200; Body := Reply (ip_body "1.2.3.4") |});
                     EvDomainInfo "apikey" "example.org" (Reply 42);
                     EvRecordList "apikey" 42 0 (Reply [recMX; rec1001])];
           stdout := [Println [PStr "1.2.3.4"]; Println [PStr "zoneid"; PInt 42];
                      Println [PStr "unchanged ip"]];
           stderr := [] |}).
Proof. vm_compute. reflexivity. Qed.

Example moved_run :
  fst (main (platform moved) argv (start tt)) = 1 /\
  skipn 3 (trace (snd (main (platform moved) argv (start tt))))
  = [EvVersionNew "apikey" 42 (Reply 7);
     EvRecordList "apikey" 42 7 (Reply [recMX; rec1001]);
     EvRecordDelete "apikey" 42 7 1001 (Reply 1);
     EvRecordAdd "apikey" 42 7
       {| NewType := "A"; NewName := "@"; NewValue := "5.6.7.8"; NewTTL := 300 |}
       (Reply rec2002);
     EvVersionSet "apikey" 42 7 (Reply true)] /\
  stderr (snd (main (platform moved) argv (start tt)))
  = [Fprintf ("err: %s" ++ LF)%string [PErr (Errorf "ip changed to 5.6.7.8")]].
Proof. vm_compute. auto. Qed.

Example nothing_deleted_run :
  skipn 3 (trace (snd (main (platform (with_deleted moved (Reply 0))) argv (start tt))))
  = [EvVersionNew "apikey" 42 (Reply 7);
     EvRecordList "apikey" 42 7 (Reply [recMX; rec1001]);
     EvRecordDelete "apikey" 42 7 1001 (Reply 0);
     EvVersionDelete "apikey" 42 7 (Reply true)] /\
  stderr (snd (main (platform (with_deleted moved (Reply 0))) argv (start tt)))
  = [Fprintf ("err: %s" ++ LF)%string [PErr (Errorf "no record deleted")]].
Proof. vm_compute. auto. Qed.

(** An add call that fails, then a rollback that fails too: the error of
    the add call is the one reported. *)
Example failed_rollback_run :
  skipn 3 (trace (snd (main (platform (with_version_deleted
                                         (with_added moved (Fault "busy")) (Reply false)))
                         argv (start tt))))
  = [EvVersionNew "apikey" 42 (Reply 7);
     EvRecordList "apikey" 42 7 (Reply [recMX; rec1001]);
     EvRecordDelete "apikey" 42 7 1001 (Reply 1);
     EvRecordAdd "apikey" 42 7
       {| NewType := "A"; NewName := "@"; NewValue := "5.6.7.8"; NewTTL := 300 |}
       (Fault "busy");
     EvVersionDelete "apikey" 42 7 (Reply false)] /\
  skipn 3 (stdout (snd (main (platform (with_version_deleted
                                          (with_added moved (Fault "busy")) (Reply false)))
                          argv (start tt))))
  = [Println [PStr "failed to apply records, deleting zone version"];
     Println [PStr "zone version deletion failed: %s"; PErr (External "busy")]] /\
  stderr (snd (main (platform (with_version_deleted
                                 (with_added moved (Fault "busy")) (Reply false)))
                 argv (start tt)))
  = [Fprintf ("err: %s" ++ LF)%string [PErr (External "busy")]].
Proof. vm_compute. auto. Qed.

Example help_run :
  main (platform moved) ["-h"] (start tt)
  = (1, {| world := tt; trace := [];
           stdout := [Println [PStr usage_text]]; stderr := [] |}).
Proof. vm_compute. reflexivity. Qed.

(** C7.  The address "1.2.3.4, 5.6.7.8" is no dotted quad, yet [getMyIP]
    accepts it, [reIP] being unanchored, and the process sends it as the
    value of an "A" record and activates the version. *)
Theorem unanchored_reIP_lets_a_non_address_be_written :
  spec_dotted_quad "1.2.3.4, 5.6.7.8" = false /\
  regexp.MatchString reIP "1.2.3.4, 5.6.7.8" = true /\
  skipn 5 (trace (snd (main (platform (with_ip moved "1.2.3.4, 5.6.7.8"))
                         argv (start tt))))
  = [EvRecordDelete "apikey" 42 7 1001 (Reply 1);
     EvRecordAdd "apikey" 42 7
       {| NewType := "A"; NewName := "@";
          NewValue := "1.2.3.4, 5.6.7.8"; NewTTL := 300 |}
       (Reply rec2002);
     EvVersionSet "apikey" 42 7 (Reply true)].
Proof. vm_compute. auto. Qed.

(** C8.  When the activation call answers false, the process ends with
    status 1 and the clone, version 7, is neither active nor deleted: no
    delete-version call is made. *)
Theorem failed_activation_leaves_the_clone :
  fst (main (platform (with_set moved (Reply false))) argv (start tt)) = 1 /\
  skipn 3 (trace (snd (main (platform (with_set moved (Reply false)))
                         argv (start tt))))
  = [EvVersionNew "apikey" 42 (Reply 7);
     EvRecordList "apikey" 42 7 (Reply [recMX; rec1001]);
     EvRecordDelete "apikey" 42 7 1001 (Reply 1);
     EvRecordAdd "apikey" 42 7
       {| NewType := "A"; NewName := "@"; NewValue := "5.6.7.8"; NewTTL := 300 |}
       (Reply rec2002);
     EvVersionSet "apikey" 42 7 (Reply false)] /\
  filter is_version_delete
    (trace (snd (main (platform (with_set moved (Reply false))) argv (start tt))))
  = [].
Proof. vm_compute. auto. Qed.

(** C10 as stated fails: with the domain missing, the process exits with
    status 1 and makes no call, but prints no usage message. *)
Lemma missing_domain_prints_no_usage :
  flag.Parse ["apikey"] = flag.Args ["apikey"] /\
  ~ (fst (main (platform moved) ["apikey"] (start tt)) <> 0 /\
     In (Println [PStr usage_text])
        (stdout (snd (main (platform moved) ["apikey"] (start tt)))) /\
     trace (snd (main (platform moved) ["apikey"] (start tt))) = []).
Proof.
  split; [reflexivity|]. vm_compute. intros (_ & [] & _).
Qed.

(** The hypothesis of a change, on the records of [moved]. *)
Lemma moved_differs :
  exists r, In r [recMX; rec1001] /\ Type_ r = "A"%string /\ Value r <> "5.6.7.8"%string.
Proof.
  exists rec1001. split; [right; left; reflexivity|].
  split; [reflexivity | discriminate].
Defined.

Lemma unmoved_agrees :
  forall r, In r [recMX; rec1001] -> Type_ r = "A"%string -> Value r = "1.2.3.4"%string.
Proof.
  intros r [<-|[<-|[]]] T; [discriminate T | reflexivity].
Defined.

Lemma drift_clone_pairs_then_activation_witness :
  (exists r, In r [recMX; rec1001] /\ Type_ r = "A"%string /\ Value r <> "5.6.7.8"%string) /\
  exists evs,
    trace (snd (checkIP_transaction (platform moved) api 42 "5.6.7.8"
                  [recMX; rec1001] (start tt))) = trace (start tt) ++ evs /\
    Forall (fun ev => call_failed ev = false) evs /\
    (forall k' z' v' records' r,
        In (EvRecordList k' z' v' (Reply records')) evs ->
        In r records' -> Type_ r = "A"%string -> Value r <> "5.6.7.8"%string ->
        exists id, strconv.ParseInt (Id r) = Ok id) /\
    exists v records' pairs,
      evs = EvVersionNew (key api) 42 (Reply v)
              :: EvRecordList (key api) 42 v (Reply records')
              :: List.concat pairs ++ [EvVersionSet (key api) 42 v (Reply true)] /\
      Forall2 (replaced (key api) 42 v "5.6.7.8")
        (filter (differs "5.6.7.8") records') pairs /\
      fst (checkIP_transaction (platform moved) api 42 "5.6.7.8"
             [recMX; rec1001] (start tt))
      = Some (Errorf "ip changed to 5.6.7.8").
Proof.
  split; [exact moved_differs|].
  destruct (drift_clone_pairs_then_activation (platform moved) api 42
              [recMX; rec1001] (start tt) moved_differs)
    as (evs & T & _ & _ & _ & Complete & _).
  exists evs. split; [exact T|].
  assert (evs = [EvVersionNew "apikey" 42 (Reply 7);
                 EvRecordList "apikey" 42 7 (Reply [recMX; rec1001]);
                 EvRecordDelete "apikey" 42 7 1001 (Reply 1);
                 EvRecordAdd "apikey" 42 7 (replacement "5.6.7.8" rec1001)
                   (Reply rec2002);
                 EvVersionSet "apikey" 42 7 (Reply true)]) as E
      by (symmetry; exact T).
  assert (Forall (fun ev => call_failed ev = false) evs) as F
      by (rewrite E; repeat constructor).
  assert (forall k' z' v' records' r,
             In (EvRecordList k' z' v' (Reply records')) evs ->
             In r records' -> Type_ r = "A"%string -> Value r <> "5.6.7.8"%string ->
             exists id, strconv.ParseInt (Id r) = Ok id) as PA.
  { intros k' z' v' records' r I Ir Ty _. rewrite E in I.
    destruct I as [I|[I|[I|[I|[I|[]]]]]]; try discriminate I.
    injection I as _ _ _ <-.
    destruct Ir as [<-|[<-|[]]]; [discriminate Ty|].
    exists 1001; reflexivity. }
  split; [exact F|]. split; [exact PA|]. exact (Complete F PA).
Defined.

Lemma change_failure_rolls_back_once_witness :
  (exists r, In r [recMX; rec1001] /\ Type_ r = "A"%string /\ Value r <> "5.6.7.8"%string) /\
  exists evs,
    trace (snd (checkIP_transaction (platform (with_added moved (Fault "busy")))
                  api 42 "5.6.7.8" [recMX; rec1001] (start tt)))
    = trace (start tt) ++ evs /\
    forall ev err,
      In ev evs -> change_failure ev err ->
      fst (checkIP_transaction (platform (with_added moved (Fault "busy")))
             api 42 "5.6.7.8" [recMX; rec1001] (start tt)) = Some err /\
      exists v dr pre,
        hd_error evs = Some (EvVersionNew (key api) 42 (Reply v)) /\
        evs = pre ++ [ev; EvVersionDelete (key api) 42 v dr] /\
        List.length (filter is_version_delete evs) = 1%nat /\
        (flag_failed dr = true ->
         In (Println [PStr "zone version deletion failed: %s"; PErr err])
            (stdout (snd (checkIP_transaction (platform (with_added moved (Fault "busy")))
                            api 42 "5.6.7.8" [recMX; rec1001] (start tt))))).
Proof.
  split; [exact moved_differs|].
  exact (change_failure_rolls_back_once (platform (with_added moved (Fault "busy")))
           api 42 [recMX; rec1001] (start tt) moved_differs).
Defined.

Lemma no_drift_no_call_witness :
  (forall r, In r [recMX; rec1001] -> Type_ r = "A"%string -> Value r = "1.2.3.4"%string) /\
  fst (checkIP_transaction (platform unmoved) api 42 "1.2.3.4" [recMX; rec1001] (start tt))
  = None /\
  trace (snd (checkIP_transaction (platform unmoved) api 42 "1.2.3.4"
                [recMX; rec1001] (start tt))) = trace (start tt) /\
  Forall (fun ev => mutating ev = false)
    (skipn (List.length (trace (start tt)))
       (trace (snd (checkIP_transaction (platform unmoved) api 42 "1.2.3.4"
                      [recMX; rec1001] (start tt))))) /\
  stdout (snd (checkIP_transaction (platform unmoved) api 42 "1.2.3.4"
                 [recMX; rec1001] (start tt)))
    = stdout (start tt) ++ [Println [PStr "unchanged ip"]] /\
  stderr (snd (checkIP_transaction (platform unmoved) api 42 "1.2.3.4"
                 [recMX; rec1001] (start tt))) = stderr (start tt) /\
  world (snd (checkIP_transaction (platform unmoved) api 42 "1.2.3.4"
                [recMX; rec1001] (start tt))) = world (start tt).
Proof.
  split; [exact unmoved_agrees|].
  exact (no_drift_no_call (platform unmoved) api 42 [recMX; rec1001]
           (start tt) unmoved_agrees).
Defined.

Lemma nothing_deleted_aborts_and_rolls_back_witness :
  (exists r, In r [recMX; rec1001] /\ Type_ r = "A"%string /\ Value r <> "5.6.7.8"%string) /\
  exists evs,
    trace (snd (checkIP_transaction (platform (with_deleted moved (Reply 0)))
                  api 42 "5.6.7.8" [recMX; rec1001] (start tt)))
    = trace (start tt) ++ evs /\
    forall k' z' v' id n,
      In (EvRecordDelete k' z' v' id (Reply n)) evs -> n < 1 ->
      fst (checkIP_transaction (platform (with_deleted moved (Reply 0)))
             api 42 "5.6.7.8" [recMX; rec1001] (start tt))
        = Some (Errorf "no record deleted") /\
      exists v dr pre,
        hd_error evs = Some (EvVersionNew (key api) 42 (Reply v)) /\
        evs = pre ++ [EvRecordDelete k' z' v' id (Reply n);
                      EvVersionDelete (key api) 42 v dr] /\
        filter is_activate evs = [].
Proof.
  split; [exact moved_differs|].
  exact (nothing_deleted_aborts_and_rolls_back (platform (with_deleted moved (Reply 0)))
           api 42 [recMX; rec1001] (start tt) moved_differs).
Defined.

Lemma unparsable_identifier_stops_the_update_witness :
  (Type_ recBad = "A"%string /\ Value recBad <> "5.6.7.8"%string /\
   strconv.ParseInt (Id recBad) = Fail (NumError "ParseInt" "12x" ErrSyntax) /\
   updateRecords_loop (platform moved) api 42 7 "5.6.7.8" [recMX] (start tt)
   = (None, start tt)) /\
  (forall s, DeleteRecord (platform moved) api 42 7 (Id recBad) s
             = (Fail (NumError "ParseInt" "12x" ErrSyntax), s)) /\
  (exists kind, NumError "ParseInt" "12x" ErrSyntax = NumError "ParseInt" (Id recBad) kind) /\
  fst (updateRecords_loop (platform moved) api 42 7 "5.6.7.8"
         ([recMX] ++ recBad :: [rec1001]) (start tt))
  = Some (NumError "ParseInt" "12x" ErrSyntax) /\
  trace (snd (updateRecords_loop (platform moved) api 42 7 "5.6.7.8"
                ([recMX] ++ recBad :: [rec1001]) (start tt))) = trace (start tt) /\
  world (snd (updateRecords_loop (platform moved) api 42 7 "5.6.7.8"
                ([recMX] ++ recBad :: [rec1001]) (start tt))) = world (start tt).
Proof.
  assert (Value recBad <> "5.6.7.8"%string) as V by discriminate.
  split; [repeat split; auto|].
  exact (unparsable_identifier_stops_the_update (platform moved) api 42 7
           [recMX] recBad [rec1001] (start tt)
           eq_refl V eq_refl eq_refl).
Defined.

Lemma updateRecords_replaces_differing_A_records_witness :
  exists evs,
    trace (snd (updateRecords (platform moved) api [] 42 7 "5.6.7.8" (start tt)))
    = trace (start tt)
        ++ EvRecordList (key api) 42 7 (Reply [recMX; rec1001]) :: evs /\
    Forall (fun ev => call_failed ev = false) evs /\
    (forall r, In r [recMX; rec1001] ->
               Type_ r = "A"%string -> Value r <> "5.6.7.8"%string ->
               exists id, strconv.ParseInt (Id r) = Ok id) /\
    fst (updateRecords (platform moved) api [] 42 7 "5.6.7.8" (start tt)) = None /\
    exists pairs,
      Forall2 (replaced (key api) 42 7 "5.6.7.8")
        (filter (differs "5.6.7.8") [recMX; rec1001]) pairs /\
      evs = List.concat pairs.
Proof.
  destruct (updateRecords_replaces_differing_A_records (platform moved) api []
              42 7 "5.6.7.8" (start tt)) as (lr & evs & T & _ & H).
  assert ([EvRecordList "apikey" 42 7 (Reply [recMX; rec1001]);
           EvRecordDelete "apikey" 42 7 1001 (Reply 1);
           EvRecordAdd "apikey" 42 7 (replacement "5.6.7.8" rec1001)
             (Reply rec2002)]
          = EvRecordList "apikey" 42 7 lr :: evs) as E by exact T.
  injection E as <- <-.
  destruct (H _ eq_refl) as (_ & _ & _ & Complete).
  eexists. split; [exact T|].
  assert (Forall (fun ev => call_failed ev = false)
            [EvRecordDelete "apikey" 42 7 1001 (Reply 1);
             EvRecordAdd "apikey" 42 7 (replacement "5.6.7.8" rec1001)
               (Reply rec2002)]) as F
      by (repeat constructor).
  assert (forall r, In r [recMX; rec1001] ->
                    Type_ r = "A"%string -> Value r <> "5.6.7.8"%string ->
                    exists id, strconv.ParseInt (Id r) = Ok id) as PA.
  { intros r Ir Ty _.
    destruct Ir as [<-|[<-|[]]]; [discriminate Ty|].
    exists 1001; reflexivity. }
  split; [exact F|]. split; [exact PA|]. exact (Complete F PA).
Defined.

Lemma missing_argument_is_an_error_without_usage_witness :
  (flag.Parse ["apikey"] = flag.Args ["apikey"] /\
   (List.length ["apikey"%string] < 2)%nat) /\
  fst (main (platform moved) ["apikey"] (start tt)) = 1 /\
  trace (snd (main (platform moved) ["apikey"] (start tt))) = [] /\
  stdout (snd (main (platform moved) ["apikey"] (start tt))) = [] /\
  stderr (snd (main (platform moved) ["apikey"] (start tt)))
  = [Fprintf ("err: %s" ++ LF)%string [PErr (Errorf "missing domain argument")]] /\
  world (snd (main (platform moved) ["apikey"] (start tt))) = tt.
Proof.
  assert ((List.length ["apikey"%string] < 2)%nat) as L by (cbn; lia).
  split; [split; [reflexivity | exact L]|].
  exact (missing_argument_is_an_error_without_usage (platform moved)
           ["apikey"] tt eq_refl L).
Defined.

Lemma exit_status_zero_only_when_unchanged_witness :
  (fst (main (platform unmoved) argv (start tt)) = 0 \/
   fst (main (platform unmoved) argv (start tt)) = 1) /\
  (fst (main (platform unmoved) argv (start tt)) = 0 ->
   fst (checkIP (platform unmoved) argv (start tt)) = Returned None /\
   stderr (snd (main (platform unmoved) argv (start tt))) = [] /\
   exists k domain hr zoneId records ip,
     trace (snd (main (platform unmoved) argv (start tt)))
     = [EvHttpGet "https://api.ipify.org?format=json" hr;
        EvDomainInfo k domain (Reply zoneId);
        EvRecordList k zoneId 0 (Reply records)] /\
     (forall r, In r records -> Type_ r = "A"%string -> Value r = ip) /\
     stdout (snd (main (platform unmoved) argv (start tt)))
     = [Println [PStr ip]; Println [PStr "zoneid"; PInt zoneId];
        Println [PStr "unchanged ip"]]) /\
  (forall err,
      fst (checkIP (platform unmoved) argv (start tt)) = Returned (Some err) ->
      fst (main (platform unmoved) argv (start tt)) = 1 /\
      stderr (snd (main (platform unmoved) argv (start tt)))
      = [Fprintf ("err: %s" ++ LF)%string [PErr err]]) /\
  (forall k zoneId v,
      In (EvVersionSet k zoneId v (Reply true))
         (trace (snd (main (platform unmoved) argv (start tt)))) ->
      exists ip,
        fst (checkIP (platform unmoved) argv (start tt))
        = Returned (Some (Errorf ("ip changed to " ++ ip)%string))) /\
  (forall code,
      fst (checkIP (platform unmoved) argv (start tt)) = Exited code ->
      fst (main (platform unmoved) argv (start tt)) = 1 /\
      (List.length (stderr (snd (main (platform unmoved) argv (start tt)))) <= 1)%nat).
Proof.
  exact (exit_status_zero_only_when_unchanged (platform unmoved) argv tt).
Defined.

End Runs.

(** * Further properties: identifiers in decimal *)

Lemma of_uint_acc_ge d : forall p, (p <= Pos.of_uint_acc d p)%positive.
Proof.
  induction d; intros p; cbn [Pos.of_uint_acc]; try lia;
    match goal with
    | |- (_ <= Pos.of_uint_acc _ ?q)%positive => specialize (IHd q); lia
    end.
Qed.

(** Evaluates the digit tests of [parse_digits] on a literal digit. *)
Ltac eval_digit :=
  match goal with
  | |- context [strconv.is_digit ?c] =>
      change (strconv.is_digit c) with true;
      let v := eval vm_compute in (strconv.digit_val c) in
      change (strconv.digit_val c) with v
  end.

(** The loop of [ParseUint] computes what the decimal digits denote, as
    long as that fits in 64 bits. *)
Lemma parse_digits_of_uint_acc d :
  forall p,
    Z.pos (Pos.of_uint_acc d p) <= strconv.maxUint64 ->
    strconv.parse_digits (NilEmpty.string_of_uint d) (Z.pos p)
    = strconv.UVal (Z.pos (Pos.of_uint_acc d p)).
Proof.
  induction d; intros p B; cbn [NilEmpty.string_of_uint Pos.of_uint_acc] in *;
    [reflexivity|..];
    match type of B with
    | Z.pos (Pos.of_uint_acc _ ?q) <= _ =>
        pose proof (of_uint_acc_ge d q) as G; specialize (IHd q B)
    end;
    cbn [strconv.parse_digits]; eval_digit; cbn [negb];
    change strconv.maxUint64 with 18446744073709551615 in *;
    change (18446744073709551615 / 10 + 1) with 1844674407370955162;
    (destruct (Z.leb_spec 1844674407370955162 (Z.pos p)); [lia|]);
    cbv zeta;
    match goal with
    | |- context [?a <? ?b] => destruct (Z.ltb_spec a b); [lia|]
    end;
    rewrite <- IHd; f_equal; lia.
Qed.

Lemma parse_digits_of_uint d :
  Z.of_N (Pos.of_uint d) <= strconv.maxUint64 ->
  strconv.parse_digits (NilEmpty.string_of_uint d) 0
  = strconv.UVal (Z.of_N (Pos.of_uint d)).
Proof.
  induction d; intros B; cbn [NilEmpty.string_of_uint Pos.of_uint] in *;
    [reflexivity|..];
    cbn [strconv.parse_digits]; eval_digit; cbn [negb];
    change (strconv.maxUint64 / 10 + 1 <=? 0) with false; cbv iota zeta;
    change (strconv.maxUint64 <? _) with false; cbv iota;
    [exact (IHd B)|..];
    cbn [Z.mul Z.add]; apply parse_digits_of_uint_acc; exact B.
Qed.

Lemma string_of_uint_nonempty d :
  d <> Decimal.Nil -> NilEmpty.string_of_uint d <> ""%string.
Proof. destruct d; cbn; congruence. Qed.

Lemma ParseUint_of_pos p :
  Z.pos p <= strconv.maxUint64 ->
  strconv.ParseUint (NilEmpty.string_of_uint (Pos.to_uint p)) = strconv.UVal (Z.pos p).
Proof.
  intros B. unfold strconv.ParseUint.
  pose proof (string_of_uint_nonempty (Unsigned.to_uint_nonnil p)) as NE.
  destruct (NilEmpty.string_of_uint (Pos.to_uint p)) eqn:E; [congruence|].
  rewrite <- E, parse_digits_of_uint; rewrite Unsigned.of_to; auto.
Qed.

Lemma string_of_uint_head d c s :
  NilEmpty.string_of_uint d = String c s ->
  Ascii.eqb c "+" = false /\ Ascii.eqb c "-" = false.
Proof. destruct d; cbn; intros H; inversion H; subst; split; reflexivity. Qed.

Lemma NilZero_string_of_pos p :
  NilZero.string_of_uint (Pos.to_uint p) = NilEmpty.string_of_uint (Pos.to_uint p).
Proof.
  pose proof (Unsigned.to_uint_nonnil p) as NN.
  unfold NilZero.string_of_uint. destruct (Pos.to_uint p); congruence.
Qed.

(** [ParseInt] reads back every 64-bit integer written in decimal. *)
Lemma ParseInt_fmt_d z :
  - 2 ^ 63 <= z < 2 ^ 63 -> strconv.ParseInt (fmt_d z) = Ok z.
Proof.
  intros B. unfold fmt_d. destruct z as [|p|p]; [reflexivity|..];
    cbn [Z.to_int NilZero.string_of_int]; rewrite NilZero_string_of_pos;
    assert (Z.pos p <= strconv.maxUint64) as M
      by (unfold strconv.maxUint64; lia).
  - pose proof (ParseUint_of_pos M) as PU.
    destruct (NilEmpty.string_of_uint (Pos.to_uint p)) as [|c rest] eqn:E;
      [discriminate PU|].
    destruct (string_of_uint_head _ E) as (Plus & Minus).
    unfold strconv.ParseInt. rewrite Plus, Minus; cbv zeta. rewrite PU.
    destruct (Z.leb_spec (2 ^ 63) (Z.pos p)); [lia|]. reflexivity.
  - unfold strconv.ParseInt.
    change (Ascii.eqb "-" "+") with false; change (Ascii.eqb "-" "-") with true.
    cbv zeta iota. rewrite (ParseUint_of_pos M). cbn [negb andb].
    destruct (Z.ltb_spec (2 ^ 63) (Z.pos p)); [lia|]. reflexivity.
Qed.

Section Identifiers.

Variable W : Type.
Variable P : Platform W.

(** X4.  An identifier that is a 64-bit integer written in decimal is sent
    by [DeleteRecord] as that very integer, in one record-delete call:
    nothing is lost beyond 32 bits. *)
Theorem DeleteRecord_sends_the_decimal_identifier api z v id st :
  - 2 ^ 63 <= id < 2 ^ 63 ->
  exists r,
    fst (DeleteRecord P api z v (fmt_d id) st) = of_reply r /\
    trace (snd (DeleteRecord P api z v (fmt_d id) st))
    = trace st ++ [EvRecordDelete (key api) z v id r].
Proof.
  intros B. unfold DeleteRecord. rewrite (ParseInt_fmt_d B).
  unfold call. destruct (domain_zone_record_delete P (key api) z v id (world st)) as [r w].
  exists r; cbn. auto.
Qed.

End Identifiers.

(** * Further properties: what [reIP] accepts *)

Lemma append_eq_nil (a b : string) :
  (a ++ b)%string = ""%string -> a = ""%string /\ b = ""%string.
Proof. destruct a; cbn; [auto|discriminate]. Qed.

Lemma nullable_Matches r : regexp.nullable r = true <-> Matches r "".
Proof.
  split.
  - induction r; cbn; intros H; try discriminate.
    + constructor.
    + apply andb_true_iff in H; destruct H.
      change ""%string with ("" ++ "")%string. constructor; auto.
    + apply orb_true_iff in H; destruct H; [apply M_AltL|apply M_AltR]; auto.
    + constructor.
  - intros H; remember ""%string as s eqn:E; induction H; cbn; auto; try discriminate.
    + apply append_eq_nil in E; destruct E. rewrite IHMatches1, IHMatches2; auto.
    + rewrite IHMatches; auto.
    + rewrite IHMatches; auto. apply orb_true_r.
Qed.

Lemma deriv_sound c r :
  forall s, Matches (regexp.deriv c r) s -> Matches r (String c s).
Proof.
  induction r; cbn; intros s H.
  - inversion H.
  - inversion H.
  - destruct (p c) eqn:E; inversion H; subst. constructor; auto.
  - destruct (regexp.nullable r1) eqn:N.
    + inversion H; subst.
      * match goal with X : Matches (regexp.Cat _ _) _ |- _ => inversion X; subst end.
        change (String c (s1 ++ s2)) with (String c s1 ++ s2)%string.
        constructor; auto.
      * change (String c s) with ("" ++ String c s)%string.
        constructor; auto. apply nullable_Matches; auto.
    + inversion H; subst.
      change (String c (s1 ++ s2)) with (String c s1 ++ s2)%string.
      constructor; auto.
  - inversion H; subst; [apply M_AltL|apply M_AltR]; auto.
  - inversion H; subst.
    change (String c (s1 ++ s2)) with (String c s1 ++ s2)%string.
    constructor; auto.
Qed.

Lemma deriv_complete c r s0 :
  Matches r s0 -> forall t, s0 = String c t -> Matches (regexp.deriv c r) t.
Proof.
  induction 1; intros t E; cbn; try discriminate.
  - inversion E; subst. rewrite H. constructor.
  - destruct s1 as [|c1 s1]; cbn in E.
    + assert (regexp.nullable r1 = true) as N by (apply nullable_Matches; auto).
      rewrite N. apply M_AltR; auto.
    + inversion E; subst.
      assert (Matches (regexp.Cat (regexp.deriv c r1) r2) (s1 ++ s2)%string) as X
        by (constructor; auto).
      destruct (regexp.nullable r1); [apply M_AltL|]; exact X.
  - apply M_AltL; auto.
  - apply M_AltR; auto.
  - destruct s1 as [|c1 s1]; cbn in E.
    + apply IHMatches2; auto.
    + inversion E; subst. constructor; auto.
Qed.

(** The derivative matcher decides membership in the language. *)
Lemma match_whole_Matches s :
  forall r, regexp.match_whole r s = true <-> Matches r s.
Proof.
  induction s as [|c s IH]; intros r; cbn.
  - apply nullable_Matches.
  - rewrite IH. split; [apply deriv_sound|].
    intros H; eapply deriv_complete; eauto.
Qed.

Lemma match_prefix_iff s :
  forall r,
    regexp.match_prefix r s = true <->
    exists mid post, s = (mid ++ post)%string /\ Matches r mid.
Proof.
  induction s as [|c s IH]; intros r.
  - cbn. rewrite orb_false_r, nullable_Matches. split.
    + intros H; exists ""%string, ""%string; auto.
    + intros (mid & post & E & H). symmetry in E.
      apply append_eq_nil in E; destruct E; subst; auto.
  - cbn [regexp.match_prefix]. rewrite orb_true_iff, IH, nullable_Matches. split.
    + intros [H|(mid & post & E & H)].
      * exists ""%string, (String c s); auto.
      * exists (String c mid), post; split; [cbn; congruence|].
        apply deriv_sound; auto.
    + intros (mid & post & E & H). destruct mid as [|c1 mid]; [left; auto|right].
      cbn in E; inversion E; subst. exists mid, post; split; auto.
      eapply deriv_complete; eauto.
Qed.

(** [MatchString r s] holds exactly when some substring of [s] is in the
    language of [r]. *)
Lemma MatchString_iff s :
  forall r,
    regexp.MatchString r s = true <->
    exists pre mid post, s = (pre ++ mid ++ post)%string /\ Matches r mid.
Proof.
  induction s as [|c s IH]; intros r.
  - cbn [regexp.MatchString]. rewrite orb_false_r, match_prefix_iff. split.
    + intros (mid & post & E & H); exists ""%string, mid, post; auto.
    + intros (pre & mid & post & E & H). symmetry in E.
      apply append_eq_nil in E; destruct E as (-> & E). exists mid, post; auto.
  - cbn [regexp.MatchString]. rewrite orb_true_iff, IH, match_prefix_iff. split.
    + intros [(mid & post & E & H)|(pre & mid & post & E & H)].
      * exists ""%string, mid, post; auto.
      * exists (String c pre), mid, post; split; [cbn; congruence|auto].
    + intros (pre & mid & post & E & H). destruct pre as [|c1 pre].
      * left; exists mid, post; auto.
      * right. cbn in E; inversion E; subst. exists pre, mid, post; auto.
Qed.

Lemma Matches_Star_digits s :
  Matches (regexp.Star (regexp.Class strconv.is_digit)) s -> all_digits s = true.
Proof.
  intros H; remember (regexp.Star (regexp.Class strconv.is_digit)) as r eqn:E.
  induction H; try discriminate; auto.
  inversion E; subst. inversion H; subst. cbn.
  match goal with D : strconv.is_digit _ = true |- _ => rewrite D end.
  apply IHMatches2; reflexivity.
Qed.

Lemma match_whole_Alt s :
  forall r1 r2,
    regexp.match_whole (regexp.Alt r1 r2) s
    = regexp.match_whole r1 s || regexp.match_whole r2 s.
Proof. induction s; intros; cbn; auto. Qed.

Lemma Matches_Plus_digits s :
  Matches (regexp.Plus (regexp.Class strconv.is_digit)) s <-> digit_run s = true.
Proof.
  split.
  - intros H; inversion H; subst.
    match goal with
    | C : Matches (regexp.Class _) _, S : Matches (regexp.Star _) _ |- _ =>
        inversion C; subst; apply Matches_Star_digits in S;
        unfold digit_run; cbn; rewrite S
    end.
    match goal with D : strconv.is_digit _ = true |- _ => rewrite D end.
    reflexivity.
  - intros H. apply match_whole_Matches.
    unfold digit_run in H. destruct s as [|c s]; cbn in *; [discriminate|].
    apply andb_true_iff in H; destruct H as (D & A). rewrite D.
    clear D. induction s as [|c' s IH]; cbn in *; auto.
    apply andb_true_iff in A; destruct A as (D & A). rewrite D.
    rewrite match_whole_Alt, (IH A). apply orb_true_r.
Qed.

Lemma Matches_dot s : Matches (regexp.Class (Ascii.eqb ".")) s <-> s = "."%string.
Proof.
  split.
  - intros H; inversion H; subst.
    match goal with D : Ascii.eqb _ _ = true |- _ =>
      apply Ascii.eqb_eq in D; subst end. reflexivity.
  - intros ->. constructor. reflexivity.
Qed.

Lemma Matches_Cat_iff r1 r2 s :
  Matches (regexp.Cat r1 r2) s <->
  exists s1 s2, s = (s1 ++ s2)%string /\ Matches r1 s1 /\ Matches r2 s2.
Proof.
  split.
  - intros H; inversion H; subst; eauto.
  - intros (s1 & s2 & -> & H1 & H2); constructor; auto.
Qed.

(** The language of [reIP]: four digit runs joined by dots. *)
Lemma Matches_reIP s :
  Matches reIP s <->
  exists a b c d,
    s = (a ++ "." ++ b ++ "." ++ c ++ "." ++ d)%string /\
    digit_run a = true /\ digit_run b = true /\
    digit_run c = true /\ digit_run d = true.
Proof.
  unfold reIP; cbv zeta. split.
  - intros H.
    repeat match goal with
    | H : Matches (regexp.Cat _ _) _ |- _ =>
        apply Matches_Cat_iff in H; destruct H as (? & ? & -> & ? & H)
    end.
    repeat match goal with
    | H : Matches (regexp.Class _) _ |- _ => apply Matches_dot in H; subst
    | H : Matches (regexp.Plus _) _ |- _ => apply Matches_Plus_digits in H
    end.
    do 4 eexists; split; [reflexivity|auto].
  - intros (a & b & c & d & -> & A & B & C & D).
    repeat (apply M_Cat;
            [first [apply Matches_Plus_digits; assumption
                   | apply Matches_dot; reflexivity]|]).
    apply Matches_Plus_digits; assumption.
Qed.

(** X1.  [reIP.MatchString] accepts exactly the strings that contain four
    non-empty runs of decimal digits separated by three dots, whatever
    surrounds them. *)
Theorem reIP_MatchString_iff_contains_dotted_quad s :
  regexp.MatchString reIP s = true <-> contains_dotted_quad s.
Proof.
  rewrite MatchString_iff. unfold contains_dotted_quad. split.
  - intros (pre & mid & post & -> & M). apply Matches_reIP in M.
    destruct M as (a & b & c & d & -> & H). exists pre, a, b, c, d, post; auto.
  - intros (pre & a & b & c & d & post & -> & H).
    exists pre, (a ++ "." ++ b ++ "." ++ c ++ "." ++ d)%string, post.
    split; [reflexivity|]. apply Matches_reIP. exists a, b, c, d; auto.
Qed.

Section Resolver.

Variable W : Type.
Variable P : Platform W.

(** X2.  When the IP service answers 200 and its body decodes to [ip],
    [getMyIP] returns [ip] itself if it contains a dotted quad, and the
    error "does not look like an IPv4" otherwise. *)
Theorem getMyIP_returns_the_decoded_string st rsp w' data ip :
  http_Get P "https://api.ipify.org?format=json" (world st) = (Reply rsp, w') ->
  StatusCode rsp = 200 ->
  Body rsp = Reply data ->
  json_Unmarshal P data = Reply ip ->
  (contains_dotted_quad ip -> fst (getMyIP P st) = Ok ip) /\
  (~ contains_dotted_quad ip ->
   fst (getMyIP P st)
   = Fail (Errorf ("does not look like an IPv4: {" ++ ip ++ "}")%string)).
Proof.
  intros G S B J. unfold getMyIP, bind, call. rewrite G; cbn [of_reply].
  rewrite S; cbn [Z.eqb Pos.eqb negb]. rewrite B; cbn [of_reply].
  rewrite J; cbn [of_reply].
  destruct (regexp.MatchString reIP ip) eqn:M; cbn [negb]; split; intros C;
    try reflexivity.
  - elim C. apply reIP_MatchString_iff_contains_dotted_quad; exact M.
  - apply reIP_MatchString_iff_contains_dotted_quad in C. congruence.
Qed.

(** X3.  [getMyIP] makes exactly one call, the GET of the fixed URL, and
    prints nothing.  A fault of that call is returned as it is; a status
    other than 200 gives the error "http call failed with <status>"; and
    a string it returns contains a dotted quad. *)
Theorem getMyIP_makes_one_call st :
  exists hr,
    trace (snd (getMyIP P st))
    = trace st ++ [EvHttpGet "https://api.ipify.org?format=json" hr] /\
    stdout (snd (getMyIP P st)) = stdout st /\
    stderr (snd (getMyIP P st)) = stderr st /\
    (forall msg, hr = Fault msg -> fst (getMyIP P st) = Fail (External msg)) /\
    (forall rsp, hr = Reply rsp -> StatusCode rsp <> 200 ->
       fst (getMyIP P st)
       = Fail (Errorf ("http call failed with " ++ fmt_d (StatusCode rsp))%string)) /\
    (forall ip, fst (getMyIP P st) = Ok ip -> contains_dotted_quad ip).
Proof.
  destruct (getMyIP P st) as [r st'] eqn:R; cbn [fst snd].
  destruct (getMyIP_inv P st R) as (hr & (T & O & E) & Re).
  exists hr. rewrite app_nil_r in O.
  split; [exact T|]. split; [exact O|]. split; [exact E|].
  unfold getMyIP, bind, call in R.
  destruct (http_Get P _ (world st)) as [hr0 w0] eqn:G.
  assert (hr0 = hr) as ->.
  { destruct hr0 as [rsp|msg]; cbn [of_reply] in R;
      [destruct (negb (StatusCode rsp =? 200));
       [|destruct (of_reply (Body rsp));
         [destruct (of_reply (json_Unmarshal P a));
          [destruct (negb (regexp.MatchString reIP a0))|]|]]|];
      inversion R; subst; cbn in T;
      apply app_inv_head in T; inversion T; reflexivity. }
  split; [|split].
  - intros msg ->. cbn [of_reply] in R. inversion R; reflexivity.
  - intros rsp -> N. cbn [of_reply] in R.
    destruct (Z.eqb_spec (StatusCode rsp) 200); [contradiction|].
    cbn [negb] in R. inversion R; reflexivity.
  - intros ip ->. apply reIP_MatchString_iff_contains_dotted_quad. auto.
Qed.

End Resolver.

(** * Further properties: the transaction *)

Section MoreRunFacts.

Variables (k : string) (z : Z) (ip : string).

(** The calls of the loop carry the credential, the zone and the version
    the loop was given. *)
Lemma LoopRun_carries v records res evs ev :
  LoopRun k z v ip records res evs -> In ev evs ->
  event_key ev = Some k /\ event_zone ev = Some z /\ event_version ev = Some v.
Proof.
  intros L I.
  destruct (LoopRun_events ev L I) as (r & id & _ & _ & _ & [(dr & ->)|(ar & ->)]);
    cbn; auto.
Qed.

(** At most two calls for each differing record. *)
Lemma LoopRun_length v records res evs :
  LoopRun k z v ip records res evs ->
  (List.length evs <= 2 * List.length (filter (differs ip) records))%nat.
Proof.
  induction 1; cbn [filter List.length];
    repeat match goal with D : differs _ _ = _ |- _ => rewrite D; clear D end;
    cbn [List.length]; lia.
Qed.

(** The errors the loop returns. *)
Lemma LoopRun_error_kind v records err evs :
  LoopRun k z v ip records (Some err) evs ->
  err = Errorf "no record deleted" \/
  (exists msg, err = External msg) \/
  (exists num kind, err = NumError "ParseInt" num kind).
Proof.
  intros L; remember (Some err) as res eqn:E; induction L;
    try discriminate; auto; inversion E; subst; eauto.
  right; right. destruct (ParseInt_Fail _ H0) as (kind & ->); eauto.
Qed.

(** When the loop stops on an identifier that does not parse, every call
    it made before had succeeded. *)
Lemma LoopRun_NumError_clean v records f num kind evs :
  LoopRun k z v ip records (Some (NumError f num kind)) evs ->
  Forall (fun ev => call_failed ev = false) evs.
Proof.
  intros L; remember (Some (NumError f num kind)) as res eqn:E; induction L;
    try discriminate; auto.
  repeat constructor; auto. cbn. apply Z.ltb_ge; auto.
Qed.

(** After the clone call every call carries the same credential and
    zone, and names the version the clone call returned. *)
Lemma TxRun_carries res evs outs :
  TxRun k z ip res evs outs ->
  exists cr,
    hd_error evs = Some (EvVersionNew k z cr) /\
    forall ev, In ev (tl evs) ->
      exists v, cr = Reply v /\ event_key ev = Some k /\
                event_zone ev = Some z /\ event_version ev = Some v.
Proof.
  intros T; inversion T; subst; eexists; (split; [reflexivity|]);
    cbn [tl]; intros ev I.
  - destruct I.
  - exists v. destruct I as [<-|[<-|[]]]; cbn; auto.
  - exists v. destruct I as [<-|I]; [cbn; auto|].
    apply in_app_or in I; destruct I as [I|[<-|[]]]; [|cbn; auto].
    split; [reflexivity|]. exact (LoopRun_carries ev H I).
  - exists v. destruct I as [<-|I]; [cbn; auto|].
    apply in_app_or in I; destruct I as [I|[<-|[]]]; [|cbn; auto].
    split; [reflexivity|]. exact (LoopRun_carries ev H I).
Qed.

(** A run whose clone call succeeded ends with the one call that disposes
    of the clone: its deletion or its activation. *)
Lemma TxRun_disposal res evs outs :
  TxRun k z ip res evs outs ->
  (List.length (filter is_version_delete evs)
   + List.length (filter is_activate evs) <= 1)%nat /\
  forall v, hd_error evs = Some (EvVersionNew k z (Reply v)) ->
    exists pre last,
      evs = pre ++ [last] /\
      ((exists dr, last = EvVersionDelete k z v dr) \/
       (exists sr, last = EvVersionSet k z v sr)) /\
      (List.length (filter is_version_delete evs)
       + List.length (filter is_activate evs) = 1)%nat.
Proof.
  intros T; inversion T; subst.
  - split; [cbn; lia|]. intros v E; discriminate.
  - split; [cbn; lia|]. intros v0 E; inversion E; subst.
    exists [EvVersionNew k z (Reply v0); EvRecordList k z v0 (Fault msg)],
           (EvVersionDelete k z v0 dr).
    split; [reflexivity|]. split; [left; eauto|reflexivity].
  - assert (List.length (filter is_version_delete
                           (EvVersionNew k z (Reply v) :: EvRecordList k z v (Reply records)
                            :: uevs ++ [EvVersionDelete k z v dr]))
            + List.length (filter is_activate
                             (EvVersionNew k z (Reply v) :: EvRecordList k z v (Reply records)
                              :: uevs ++ [EvVersionDelete k z v dr])) = 1)%nat as N.
    { cbn. rewrite !filter_app, (LoopRun_no_version_delete H), (LoopRun_no_activate H).
      reflexivity. }
    split; [lia|]. intros v0 E; inversion E; subst.
    exists (EvVersionNew k z (Reply v0) :: EvRecordList k z v0 (Reply records) :: uevs),
           (EvVersionDelete k z v0 dr).
    split; [reflexivity|]. split; [left; eauto|exact N].
  - assert (List.length (filter is_version_delete
                           (EvVersionNew k z (Reply v) :: EvRecordList k z v (Reply records)
                            :: uevs ++ [EvVersionSet k z v sr]))
            + List.length (filter is_activate
                             (EvVersionNew k z (Reply v) :: EvRecordList k z v (Reply records)
                              :: uevs ++ [EvVersionSet k z v sr])) = 1)%nat as N.
    { cbn. rewrite !filter_app, (LoopRun_no_version_delete H), (LoopRun_no_activate H).
      reflexivity. }
    split; [lia|]. intros v0 E; inversion E; subst.
    exists (EvVersionNew k z (Reply v0) :: EvRecordList k z v0 (Reply records) :: uevs),
           (EvVersionSet k z v0 sr).
    split; [reflexivity|]. split; [right; eauto|exact N].
Qed.

(** The run is reported as a change exactly when the activation call
    answered true. *)
Lemma TxRun_changed_iff res evs outs :
  TxRun k z ip res evs outs ->
  (res = Some (Errorf ("ip changed to " ++ ip)%string) <->
   exists k' z' v', In (EvVersionSet k' z' v' (Reply true)) evs).
Proof.
  intros T. split.
  - intros E; subst res; inversion T; subst.
    + match goal with
      | L : LoopRun _ _ _ _ _ (Some _) _ |- _ =>
          destruct (LoopRun_error_kind L) as [X|[(msg & X)|(num & kind & X)]];
            cbn in X; discriminate X
      end.
    + destruct sr as [[|]|msg]; cbn in *; try discriminate.
      exists k, z, v. do 2 right. apply in_or_app; right; cbn; auto.
  - intros (k' & z' & v' & I).
    destruct (TxRun_activation _ T I eq_refl)
      as (v0 & records' & pairs & sr & Ev & _ & _ & _ & Res).
    inversion Ev; subst sr. exact Res.
Qed.

(** At most three calls besides those of the loop. *)
Lemma TxRun_length res evs outs k' z' v' records' :
  TxRun k z ip res evs outs ->
  In (EvRecordList k' z' v' (Reply records')) evs ->
  (List.length evs <= 3 + 2 * List.length (filter (differs ip) records'))%nat.
Proof.
  intros T I; inversion T; subst; cbn in I.
  - destruct I as [E|[]]; discriminate.
  - destruct I as [E|[E|[E|[]]]]; discriminate.
  - destruct I as [E|[E|I]]; try discriminate.
    + injection E as <- <- <- <-. pose proof (LoopRun_length H) as L.
      cbn [List.length]. rewrite length_app; cbn [List.length]. lia.
    + apply in_app_or in I; destruct I as [I|[E|[]]]; try discriminate.
      destruct (LoopRun_events _ H I) as (r & id & _ & _ & _ & [(dr0 & E)|(ar & E)]);
        discriminate.
  - destruct I as [E|[E|I]]; try discriminate.
    + injection E as <- <- <- <-. pose proof (LoopRun_length H) as L.
      cbn [List.length]. rewrite length_app; cbn [List.length]. lia.
    + apply in_app_or in I; destruct I as [I|[E|[]]]; try discriminate.
      destruct (LoopRun_events _ H I) as (r & id & _ & _ & _ & [(dr0 & E)|(ar & E)]);
        discriminate.
Qed.

End MoreRunFacts.

Section MoreTransaction.

Variable W : Type.
Variable P : Platform W.

(** X5.  Once a change is detected, every call of the transaction after
    the clone call carries the credential and the zone of the clone call
    and names the version the clone call returned: the listing, the
    deletions, the additions, the activation and the deletion of the
    version all concern the clone. *)
Theorem transaction_only_touches_its_clone api z ip records st :
  (exists r, In r records /\ Type_ r = "A"%string /\ Value r <> ip) ->
  exists evs cr,
    trace (snd (checkIP_transaction P api z ip records st)) = trace st ++ evs /\
    hd_error evs = Some (EvVersionNew (key api) z cr) /\
    forall ev, In ev (tl evs) ->
      exists v, cr = Reply v /\ event_key ev = Some (key api) /\
                event_zone ev = Some z /\ event_version ev = Some v.
Proof.
  intros C; apply changed_true_iff in C.
  destruct (checkIP_transaction P api z ip records st) as [res st'] eqn:R.
  destruct (transaction_run P api z ip records st C R) as (evs & outs0 & outs & (T & _) & X).
  destruct (TxRun_carries X) as (cr & Hd & F).
  exists evs, cr; cbn [snd]; auto.
Qed.

(** X6.  A clone call that fails ends the transaction: its error is
    returned and no other call is made, neither a listing nor a deletion
    of a version. *)
Theorem failed_clone_ends_the_transaction api z ip records st :
  (exists r, In r records /\ Type_ r = "A"%string /\ Value r <> ip) ->
  exists evs,
    trace (snd (checkIP_transaction P api z ip records st)) = trace st ++ evs /\
    forall k' z' msg,
      In (EvVersionNew k' z' (Fault msg)) evs ->
      fst (checkIP_transaction P api z ip records st) = Some (External msg) /\
      evs = [EvVersionNew (key api) z (Fault msg)].
Proof.
  intros C; apply changed_true_iff in C.
  destruct (checkIP_transaction P api z ip records st) as [res st'] eqn:R.
  destruct (transaction_run P api z ip records st C R) as (evs & outs0 & outs & (T & _) & X).
  exists evs; cbn [fst snd]. split; [exact T|]. intros k' z' msg I.
  inversion X; subst; cbn in I.
  - destruct I as [E|[]]. injection E as <- <- <-. auto.
  - destruct I as [E|[E|[E|[]]]]; discriminate.
  - destruct I as [E|[E|I]]; try discriminate.
    apply in_app_or in I; destruct I as [I|[E|[]]]; try discriminate.
    pose proof (filter_nil_not_in _ _ _ (LoopRun_no_clone H) I); discriminate.
  - destruct I as [E|[E|I]]; try discriminate.
    apply in_app_or in I; destruct I as [I|[E|[]]]; try discriminate.
    pose proof (filter_nil_not_in _ _ _ (LoopRun_no_clone H) I); discriminate.
Qed.

(** X7.  When the listing of the cloned version fails, its error is
    returned and the clone is deleted: the calls are the clone, the failed
    listing and one delete-version call for the clone, and no record is
    touched. *)
Theorem failed_listing_of_the_clone_rolls_back api z ip records st :
  (exists r, In r records /\ Type_ r = "A"%string /\ Value r <> ip) ->
  exists evs,
    trace (snd (checkIP_transaction P api z ip records st)) = trace st ++ evs /\
    forall k' z' v msg,
      In (EvRecordList k' z' v (Fault msg)) evs ->
      fst (checkIP_transaction P api z ip records st) = Some (External msg) /\
      exists dr,
        evs = [EvVersionNew (key api) z (Reply v);
               EvRecordList (key api) z v (Fault msg);
               EvVersionDelete (key api) z v dr].
Proof.
  intros C; apply changed_true_iff in C.
  destruct (checkIP_transaction P api z ip records st) as [res st'] eqn:R.
  destruct (transaction_run P api z ip records st C R) as (evs & outs0 & outs & (T & _) & X).
  exists evs; cbn [fst snd]. split; [exact T|]. intros k' z' v' msg I.
  inversion X; subst; cbn in I.
  - destruct I as [E|[]]; discriminate.
  - destruct I as [E|[E|[E|[]]]]; try discriminate.
    injection E as <- <- <- <-. eauto.
  - destruct I as [E|[E|I]]; try discriminate.
    apply in_app_or in I; destruct I as [I|[E|[]]]; try discriminate.
    destruct (LoopRun_events _ H I) as (r & id & _ & _ & _ & [(dr0 & E)|(ar & E)]);
      discriminate.
  - destruct I as [E|[E|I]]; try discriminate.
    apply in_app_or in I; destruct I as [I|[E|[]]]; try discriminate.
    destruct (LoopRun_events _ H I) as (r & id & _ & _ & _ & [(dr0 & E)|(ar & E)]);
      discriminate.
Qed.

(** X8.  When the transaction returns a [NumError], the error of an
    identifier that does not parse, every call made until then had
    succeeded, the last call is the deletion of the clone, and no
    activation was issued. *)
Theorem unparsable_identifier_rolls_back api z ip records st :
  (exists r, In r records /\ Type_ r = "A"%string /\ Value r <> ip) ->
  exists evs,
    trace (snd (checkIP_transaction P api z ip records st)) = trace st ++ evs /\
    forall f num kind,
      fst (checkIP_transaction P api z ip records st) = Some (NumError f num kind) ->
      exists v dr pre,
        hd_error evs = Some (EvVersionNew (key api) z (Reply v)) /\
        evs = pre ++ [EvVersionDelete (key api) z v dr] /\
        Forall (fun ev => call_failed ev = false) pre /\
        filter is_activate evs = [].
Proof.
  intros C; apply changed_true_iff in C.
  destruct (checkIP_transaction P api z ip records st) as [res st'] eqn:R.
  destruct (transaction_run P api z ip records st C R) as (evs & outs0 & outs & (T & _) & X).
  exists evs; cbn [fst snd]. split; [exact T|]. intros f num kind E; subst res.
  inversion X; subst.
  - match goal with
    | L : LoopRun _ _ ?v0 _ ?recs (Some _) ?uevs0 |- _ =>
        exists v0, dr,
          (EvVersionNew (key api) z (Reply v0)
           :: EvRecordList (key api) z v0 (Reply recs) :: uevs0);
        split; [reflexivity|]; split; [reflexivity|]; split;
        [repeat constructor; exact (LoopRun_NumError_clean L)
        |cbn; rewrite filter_app, (LoopRun_no_activate L); reflexivity]
    end.
  - destruct sr as [[|]|msg]; discriminate.
Qed.

(** X9.  The transaction issues at most one call that disposes of the
    clone.  When the clone call succeeded it issues exactly one, as its
    last call: the deletion of the clone or its activation, never both. *)
Theorem clone_is_activated_or_deleted_never_both api z ip records st :
  (exists r, In r records /\ Type_ r = "A"%string /\ Value r <> ip) ->
  exists evs,
    trace (snd (checkIP_transaction P api z ip records st)) = trace st ++ evs /\
    (List.length (filter is_version_delete evs)
     + List.length (filter is_activate evs) <= 1)%nat /\
    forall v, hd_error evs = Some (EvVersionNew (key api) z (Reply v)) ->
      exists pre last,
        evs = pre ++ [last] /\
        ((exists dr, last = EvVersionDelete (key api) z v dr) \/
         (exists sr, last = EvVersionSet (key api) z v sr)) /\
        (List.length (filter is_version_delete evs)
         + List.length (filter is_activate evs) = 1)%nat.
Proof.
  intros C; apply changed_true_iff in C.
  destruct (checkIP_transaction P api z ip records st) as [res st'] eqn:R.
  destruct (transaction_run P api z ip records st C R) as (evs & outs0 & outs & (T & _) & X).
  exists evs; cbn [snd]. split; [exact T|]. exact (TxRun_disposal X).
Qed.

(** X10.  The transaction returns the error "ip changed to <ip>" exactly
    when the activation call answered true; the calls are then the clone,
    the listing of the clone, one successful delete+add pair per differing
    "A" record of that listing, and the activation. *)
Theorem change_reported_iff_activation_succeeded api z ip records st :
  (exists r, In r records /\ Type_ r = "A"%string /\ Value r <> ip) ->
  exists evs,
    trace (snd (checkIP_transaction P api z ip records st)) = trace st ++ evs /\
    (fst (checkIP_transaction P api z ip records st)
     = Some (Errorf ("ip changed to " ++ ip)%string) <->
     exists k' z' v', In (EvVersionSet k' z' v' (Reply true)) evs) /\
    (fst (checkIP_transaction P api z ip records st)
     = Some (Errorf ("ip changed to " ++ ip)%string) ->
     exists v records' pairs,
       evs = EvVersionNew (key api) z (Reply v)
               :: EvRecordList (key api) z v (Reply records')
               :: List.concat pairs ++ [EvVersionSet (key api) z v (Reply true)] /\
       Forall2 (replaced (key api) z v ip) (filter (differs ip) records') pairs).
Proof.
  intros C; apply changed_true_iff in C.
  destruct (checkIP_transaction P api z ip records st) as [res st'] eqn:R.
  destruct (transaction_run P api z ip records st C R) as (evs & outs0 & outs & (T & _) & X).
  exists evs; cbn [fst snd]. split; [exact T|].
  pose proof (TxRun_changed_iff X) as Iff. split; [exact Iff|].
  intros E. apply Iff in E. destruct E as (k' & z' & v' & I).
  destruct (TxRun_activation _ X I eq_refl)
    as (v & records' & pairs & sr & Ev & Sh & F & _).
  inversion Ev; subst. exists v, records', pairs; auto.
Qed.

(** X11.  The transaction makes at most three calls besides two for each
    differing "A" record of the listing of the clone. *)
Theorem transaction_call_bound api z ip records st :
  (exists r, In r records /\ Type_ r = "A"%string /\ Value r <> ip) ->
  exists evs,
    trace (snd (checkIP_transaction P api z ip records st)) = trace st ++ evs /\
    forall k' z' v' records',
      In (EvRecordList k' z' v' (Reply records')) evs ->
      (List.length evs <= 3 + 2 * List.length (filter (differs ip) records'))%nat.
Proof.
  intros C; apply changed_true_iff in C.
  destruct (checkIP_transaction P api z ip records st) as [res st'] eqn:R.
  destruct (transaction_run P api z ip records st C R) as (evs & outs0 & outs & (T & _) & X).
  exists evs; cbn [snd]. split; [exact T|].
  intros k' z' v' records' I. exact (TxRun_length _ _ _ _ X I).
Qed.

End MoreTransaction.

(** * Further properties: the whole process *)

(** An argument that starts with a dash, has two bytes at least and is
    not "--" ends [flag.Parse] with a call of [flag.Usage]. *)
Lemma flag_Parse_dash c s2 rest :
  (c <> "-"%char \/ s2 <> ""%string) ->
  flag.Parse (String "-" (String c s2) :: rest) = flag.Help \/
  exists msg, flag.Parse (String "-" (String c s2) :: rest) = flag.Failf msg.
Proof.
  intros H. unfold flag.Parse.
  destruct (Ascii.eqb c "-" && (s2 =? "")%string) eqn:E.
  - apply andb_true_iff in E; destruct E as (E1 & E2).
    apply Ascii.eqb_eq in E1. apply String.eqb_eq in E2. tauto.
  - destruct (if Ascii.eqb c "-" then s2 else String c s2) as [|n0 tl]; [eauto|].
    destruct (Ascii.eqb n0 "-" || Ascii.eqb n0 "="); [eauto|].
    destruct ((String n0 (flag.before_eq tl) =? "help")%string
              || (String n0 (flag.before_eq tl) =? "h")%string); eauto.
Qed.

(** Closes a case of [checkIP_reads] by the shape of the calls. *)
Tactic Notation "reads" integer(n) :=
  chain; eexists; split; [match goal with X : extends _ _ _ _ |- _ => exact (proj1 X) end|];
  do n right; eauto 10.

Section MoreProcess.

Variable W : Type.
Variable P : Platform W.

(** [main] adds no call to those of [checkIP]. *)
Lemma main_trace args (st : State W) :
  trace (snd (main P args st)) = trace (snd (checkIP P args st)).
Proof.
  unfold main, bind. destruct (checkIP P args st) as [[[err|]|code] st']; reflexivity.
Qed.

Lemma main_stdout args (st : State W) :
  stdout (snd (main P args st)) = stdout (snd (checkIP P args st)).
Proof.
  unfold main, bind. destruct (checkIP P args st) as [[[err|]|code] st']; reflexivity.
Qed.

(** The calls of [checkIP], by how far it gets: the IP, the zone, the
    records of the active version, then the transaction. *)
Lemma checkIP_reads args pos st o st' :
  checkIP P args st = (o, st') ->
  flag.Parse args = flag.Args pos ->
  exists evs,
    trace st' = trace st ++ evs /\
    (evs = [] \/
     (exists hr, evs = [EvHttpGet "https://api.ipify.org?format=json" hr]) \/
     (exists hr msg,
         evs = [EvHttpGet "https://api.ipify.org?format=json" hr;
                EvDomainInfo (List.nth 0 pos ""%string) (List.nth 1 pos ""%string)
                  (Fault msg)] /\
         o = Returned (Some (External msg))) \/
     (exists hr zn msg,
         evs = [EvHttpGet "https://api.ipify.org?format=json" hr;
                EvDomainInfo (List.nth 0 pos ""%string) (List.nth 1 pos ""%string)
                  (Reply zn);
                EvRecordList (List.nth 0 pos ""%string) zn 0 (Fault msg)] /\
         o = Returned (Some (External msg))) \/
     (exists hr zn records ip st1 res tevs,
         evs = EvHttpGet "https://api.ipify.org?format=json" hr
               :: EvDomainInfo (List.nth 0 pos ""%string) (List.nth 1 pos ""%string)
                    (Reply zn)
               :: EvRecordList (List.nth 0 pos ""%string) zn 0 (Reply records)
               :: tevs /\
         checkIP_transaction P {| key := List.nth 0 pos ""%string |} zn ip records st1
         = (res, st') /\
         trace st' = trace st1 ++ tevs)).
Proof.
  unfold checkIP; intros H FP. rewrite FP in H.
  destruct (Z.of_nat (List.length pos) <? 1);
    [run_step; exists []; rewrite app_nil_r; auto|].
  destruct (Z.of_nat (List.length pos) <? 2);
    [run_step; exists []; rewrite app_nil_r; auto|].
  repeat run_step.
  match goal with
  | G : getMyIP _ _ = _ |- _ =>
      apply getMyIP_inv in G; destruct G as (hr & X0 & Re)
  end.
  match goal with
  | G : match ?a with Ok _ => _ | Fail _ => _ end _ = _ |- _ =>
      destruct a as [ip|err]
  end; [|run_step; reads 1].
  repeat run_step.
  unfold NewGandiAPI in *.
  destruct (xmlrpc_NewClient P _); [run_step; reads 1|].
  unfold GetZoneId in *; cbn [key] in *. repeat run_step.
  case_reply zoneId; [|run_step; reads 2].
  unfold GetZoneRecords in *; cbn [key] in *. repeat run_step.
  case_reply records; [|run_step; reads 3].
  repeat run_step. chain.
  match goal with
  | T : checkIP_transaction _ _ _ _ _ ?s1 = (_, ?s2), X : extends st ?s1 _ _ |- _ =>
      destruct X as (T1 & _);
      assert (exists tevs, trace s2 = trace s1 ++ tevs) as (tevs & T2)
  end.
  { match goal with
    | T : checkIP_transaction _ _ _ ?i ?rs ?s1 = _ |- _ =>
        destruct (changed i rs) eqn:C;
        [destruct (transaction_run _ _ _ _ _ _ C T) as (evs & _ & _ & (T2 & _) & _);
         eauto
        |rewrite (transaction_unchanged _ _ _ _ _ _ C) in T; inversion T; subst;
         exists []; cbn; rewrite app_nil_r; reflexivity]
    end. }
  exists ([EvHttpGet "https://api.ipify.org?format=json" hr;
           EvDomainInfo (List.nth 0 pos ""%string) (List.nth 1 pos ""%string) (Reply zoneId);
           EvRecordList (List.nth 0 pos ""%string) zoneId 0 (Reply records)] ++ tevs).
  split; [rewrite T2, T1, app_assoc; reflexivity|].
  do 4 right. do 7 eexists. split; [reflexivity|]. split; [eassumption|exact T2].
Qed.

End MoreProcess.

(** Closes the provenance of one of the calls before the transaction. *)
Ltac provenance :=
  repeat split; cbn; intros; try discriminate;
  try match goal with
      | H : _ = _ |- _ => inversion H; subst; clear H
      end; auto 8.

Section ProcessProperties.

Variable W : Type.
Variable P : Platform W.

(** X12.  When the first argument starts with a dash, has two bytes at
    least and is not "--", the process prints the usage text on standard
    output and exits with status 1 without making any call; standard
    error gets at most the one line of the flag parser. *)
Theorem flag_argument_ends_in_usage c s2 rest w :
  (c <> "-"%char \/ s2 <> ""%string) ->
  fst (main P (String "-" (String c s2) :: rest) (start w)) = 1 /\
  trace (snd (main P (String "-" (String c s2) :: rest) (start w))) = [] /\
  stdout (snd (main P (String "-" (String c s2) :: rest) (start w)))
  = [Println [PStr usage_text]] /\
  (List.length (stderr (snd (main P (String "-" (String c s2) :: rest) (start w)))) <= 1)%nat /\
  world (snd (main P (String "-" (String c s2) :: rest) (start w))) = w.
Proof.
  intros H. unfold main, checkIP, bind.
  destruct (flag_Parse_dash rest H) as [E|(msg & E)]; rewrite E; cbn; auto 6.
Qed.

(** X13.  A mutating call is only made after the IP was resolved to a
    string containing a dotted quad, the zone was found and the listing
    of the active version (version 0) showed an "A" record that differs
    from the IP; these three reads are the first calls and the clone call
    is the fourth. *)
Theorem mutation_only_after_validated_reads args w ev :
  In ev (trace (snd (main P args (start w)))) ->
  mutating ev = true ->
  exists pos hr ip zoneId records cr evs,
    flag.Parse args = flag.Args pos /\ (2 <= List.length pos)%nat /\
    trace (snd (main P args (start w)))
    = EvHttpGet "https://api.ipify.org?format=json" hr
      :: EvDomainInfo (List.nth 0 pos ""%string) (List.nth 1 pos ""%string) (Reply zoneId)
      :: EvRecordList (List.nth 0 pos ""%string) zoneId 0 (Reply records)
      :: EvVersionNew (List.nth 0 pos ""%string) zoneId cr
      :: evs /\
    contains_dotted_quad ip /\
    (exists r, In r records /\ Type_ r = "A"%string /\ Value r <> ip) /\
    hd_error (stdout (snd (main P args (start w)))) = Some (Println [PStr ip]).
Proof.
  rewrite main_trace, main_stdout.
  destruct (checkIP P args (start w)) as [o st'] eqn:R; cbn [snd].
  apply checkIP_inv in R.
  destruct R as [(_ & _ & T & _)|[(pos & err & evs & outs & _ & _ & (T & _) & F)
                 |(pos & hr & ip & zoneId & records & st1 & res & FP & L & Re & (T1 & O1 & _) & R & _)]];
    cbn [start trace stdout app] in *; intros I M.
  - rewrite T in I; destruct I.
  - rewrite T in I. rewrite Forall_forall in F. rewrite (F _ I) in M; discriminate.
  - destruct (changed ip records) eqn:C.
    + destruct (transaction_run _ _ _ _ _ _ C R) as (evs & outs0 & outs & (T & O & _) & X).
      destruct (TxRun_clone X) as ((cr & Hd) & _).
      destruct evs as [|e0 evs]; [discriminate|]. cbn in Hd; inversion Hd; subst e0.
      exists pos, hr, ip, zoneId, records, cr, evs.
      split; [exact FP|]. split; [exact L|].
      split; [rewrite T, T1; reflexivity|].
      split; [apply reIP_MatchString_iff_contains_dotted_quad; exact Re|].
      split; [apply changed_true_iff; exact C|].
      rewrite O, O1; reflexivity.
    + rewrite (transaction_unchanged _ _ _ _ _ _ C) in R. inversion R; subst.
      cbn [trace] in I. rewrite T1 in I.
      destruct I as [<-|[<-|[<-|[]]]]; discriminate.
Qed.

(** X14.  Every registrar call of a run carries the first positional
    argument as credential; the zone lookup is made for the second
    positional argument; and every call that names a zone names one that
    the zone lookup of this run returned. *)
Theorem calls_carry_the_given_credential_and_zone args w ev :
  In ev (trace (snd (main P args (start w)))) ->
  exists pos,
    flag.Parse args = flag.Args pos /\
    (forall k, event_key ev = Some k -> k = List.nth 0 pos ""%string) /\
    (forall k d r, ev = EvDomainInfo k d r -> d = List.nth 1 pos ""%string) /\
    (forall zn, event_zone ev = Some zn ->
       In (EvDomainInfo (List.nth 0 pos ""%string) (List.nth 1 pos ""%string) (Reply zn))
          (trace (snd (main P args (start w))))).
Proof.
  rewrite main_trace.
  destruct (checkIP P args (start w)) as [o st'] eqn:R; cbn [snd].
  destruct (flag.Parse args) as [pos| |msg] eqn:FP.
  - intros I. exists pos. split; [reflexivity|].
    destruct (checkIP_reads P args (start w) R FP) as (evs & T & Sh). cbn [start trace app] in T.
    rewrite T in I |- *.
    destruct Sh as [->|[(hr & ->)|[(hr & msg & -> & _)|[(hr & zn & msg & -> & _)
                   |(hr & zn & records & ip & st1 & res & tevs & -> & Tx & T2)]]]].
    + destruct I.
    + destruct I as [<-|[]]. provenance.
    + destruct I as [<-|[<-|[]]]; provenance.
    + destruct I as [<-|[<-|[<-|[]]]]; provenance.
    + assert (forall e, In e tevs ->
                event_key e = Some (List.nth 0 pos ""%string) /\ event_zone e = Some zn) as F.
      { intros e Ie. destruct (changed ip records) eqn:C.
        - destruct (transaction_run _ _ _ _ _ _ C Tx) as (evs & _ & outs & (T3 & _) & X).
          rewrite T2 in T3. apply app_inv_head in T3; subst evs.
          destruct (TxRun_carries X) as (cr & Hd & Fc). cbn [key] in *.
          destruct tevs as [|e0 tevs]; [destruct Ie|]. cbn in Hd; inversion Hd; subst e0.
          destruct Ie as [<-|Ie]; [cbn; auto|].
          destruct (Fc e Ie) as (v & _ & K & Z0 & _); auto.
        - rewrite (transaction_unchanged _ _ _ _ _ _ C) in Tx. inversion Tx; subst.
          cbn [trace] in T2. rewrite <- (app_nil_r (trace st1)) in T2 at 1.
          apply app_inv_head in T2; subst tevs. destruct Ie. }
      destruct I as [<-|[<-|[<-|I]]]; [provenance ..|].
      destruct (F _ I) as (K & Z0). repeat split.
      * intros k E. rewrite K in E. inversion E; reflexivity.
      * intros k d r E. subst ev. discriminate.
      * intros zn0 E. rewrite Z0 in E. inversion E; subst. right; left. reflexivity.
  - apply checkIP_inv in R.
    destruct R as [(_ & _ & T & _)|[(pos & err & evs & outs & FP' & _)
                  |(pos & hr & ip & zoneId & records & st1 & res & FP' & _)]];
      [|congruence|congruence].
    cbn in T. rewrite T. intros [].
  - apply checkIP_inv in R.
    destruct R as [(_ & _ & T & _)|[(pos & err & evs & outs & FP' & _)
                  |(pos & hr & ip & zoneId & records & st1 & res & FP' & _)]];
      [|congruence|congruence].
    cbn in T. rewrite T. intros [].
Qed.

(** X15.  When the IP cannot be resolved, whatever the reason, the
    registrar is never contacted: the only call of the run is the GET of
    the IP service, the error is written on standard error and the status
    is 1. *)
Theorem unresolved_ip_contacts_no_registrar args pos w err :
  flag.Parse args = flag.Args pos ->
  (2 <= List.length pos)%nat ->
  fst (getMyIP P (start w)) = Fail err ->
  fst (main P args (start w)) = 1 /\
  (exists hr,
      trace (snd (main P args (start w)))
      = [EvHttpGet "https://api.ipify.org?format=json" hr]) /\
  stdout (snd (main P args (start w))) = [] /\
  stderr (snd (main P args (start w)))
  = [Fprintf ("err: %s" ++ LF)%string [PErr err]].
Proof.
  intros FP L G.
  destruct (getMyIP P (start w)) as [r st1] eqn:R. cbn [fst] in G; subst r.
  assert (main P args (start w)
          = (1, {| world := world st1; trace := trace st1; stdout := stdout st1;
                   stderr := stderr st1 ++ [Fprintf ("err: %s" ++ LF)%string [PErr err]] |}))
    as M.
  { unfold main, checkIP, bind. rewrite FP.
    destruct (Z.ltb_spec (Z.of_nat (List.length pos)) 1); [lia|].
    destruct (Z.ltb_spec (Z.of_nat (List.length pos)) 2); [lia|].
    rewrite R. reflexivity. }
  destruct (getMyIP_inv P _ R) as (hr & (T & O & E) & _).
  cbn [start trace stdout stderr app] in *.
  rewrite M; cbn [fst snd trace stdout stderr]. rewrite T, O, E. eauto.
Qed.

(** X16.  Only the first two positional arguments are read: two command
    lines that agree on them give the same run. *)
Theorem further_arguments_are_ignored args1 args2 k d more1 more2 (st : State W) :
  flag.Parse args1 = flag.Args (k :: d :: more1) ->
  flag.Parse args2 = flag.Args (k :: d :: more2) ->
  main P args1 st = main P args2 st.
Proof.
  intros F1 F2. unfold main, checkIP. rewrite F1, F2.
  cbn [List.length List.nth].
  destruct (Z.ltb_spec (Z.of_nat (S (S (List.length more1)))) 1); [lia|].
  destruct (Z.ltb_spec (Z.of_nat (S (S (List.length more1)))) 2); [lia|].
  destruct (Z.ltb_spec (Z.of_nat (S (S (List.length more2)))) 1); [lia|].
  destruct (Z.ltb_spec (Z.of_nat (S (S (List.length more2)))) 2); [lia|].
  reflexivity.
Qed.

End ProcessProperties.

Section ReadFailures.

Variable W : Type.
Variable P : Platform W.

(** A run of [checkIP] that returns has written nothing on standard
    error. *)
Lemma checkIP_stderr args w r st' :
  checkIP P args (start w) = (Returned r, st') -> stderr st' = [].
Proof.
  intros R. pose proof R as R0. apply checkIP_inv in R.
  destruct R as [(_ & E & _)|[(pos & err & evs & outs & _ & _ & (_ & _ & E) & _)
                 |(pos & hr & ip & zoneId & records & st1 & res & _ & _ & _ & (_ & _ & E1) & R & _)]].
  - discriminate.
  - exact E.
  - destruct (changed ip records) eqn:C.
    + destruct (transaction_run _ _ _ _ _ _ C R) as (evs & _ & outs & (_ & _ & E) & _).
      rewrite E, E1; reflexivity.
    + rewrite (transaction_unchanged _ _ _ _ _ _ C) in R. inversion R; subst.
      cbn. exact E1.
Qed.

(** What [main] does with an error returned by [checkIP]. *)
Lemma main_of_error args w err st' :
  checkIP P args (start w) = (Returned (Some err), st') ->
  fst (main P args (start w)) = 1 /\
  stderr (snd (main P args (start w)))
  = [Fprintf ("err: %s" ++ LF)%string [PErr err]].
Proof.
  intros R. pose proof (checkIP_stderr _ _ R) as E.
  unfold main, bind. rewrite R. cbn. rewrite E. auto.
Qed.

(** X17.  [DeleteRecord] sends nothing exactly when the identifier does
    not parse, and then returns the [NumError] of [ParseInt]; when the
    identifier parses it makes exactly one call, the record-delete call
    with the parsed value, which lies in the signed 64-bit range, and
    returns what the call answered. *)
Theorem DeleteRecord_sends_only_a_parsed_identifier api z v id st :
  (exists kind,
      strconv.ParseInt id = Fail (NumError "ParseInt" id kind) /\
      trace (snd (DeleteRecord P api z v id st)) = trace st /\
      fst (DeleteRecord P api z v id st) = Fail (NumError "ParseInt" id kind)) \/
  (exists n r,
      strconv.ParseInt id = Ok n /\ - 2 ^ 63 <= n < 2 ^ 63 /\
      fst (DeleteRecord P api z v id st) = of_reply r /\
      trace (snd (DeleteRecord P api z v id st))
      = trace st ++ [EvRecordDelete (key api) z v n r]).
Proof.
  unfold DeleteRecord. destruct (strconv.ParseInt id) as [n|err] eqn:E.
  - right. unfold call.
    destruct (domain_zone_record_delete P (key api) z v n (world st)) as [r w].
    exists n, r. split; [reflexivity|]. split; [exact (ParseInt_range _ E)|]. cbn; auto.
  - left. destruct (ParseInt_Fail _ E) as (kind & ->). exists kind. cbn; auto.
Qed.

(** X18.  A zone lookup that fails ends the run at once: the calls are
    the GET of the IP service and the lookup, the error of the lookup is
    written on standard error and the status is 1.  The same holds for a
    failure of the third call, the listing of the active version. *)
Theorem failed_read_ends_the_run args w :
  (forall k d msg,
      In (EvDomainInfo k d (Fault msg)) (trace (snd (main P args (start w)))) ->
      (exists hr,
          trace (snd (main P args (start w)))
          = [EvHttpGet "https://api.ipify.org?format=json" hr;
             EvDomainInfo k d (Fault msg)]) /\
      fst (main P args (start w)) = 1 /\
      stderr (snd (main P args (start w)))
      = [Fprintf ("err: %s" ++ LF)%string [PErr (External msg)]]) /\
  (forall k zn v msg,
      nth_error (trace (snd (main P args (start w)))) 2
      = Some (EvRecordList k zn v (Fault msg)) ->
      v = 0 /\
      List.length (trace (snd (main P args (start w)))) = 3%nat /\
      fst (main P args (start w)) = 1 /\
      stderr (snd (main P args (start w)))
      = [Fprintf ("err: %s" ++ LF)%string [PErr (External msg)]]).
Proof.
  rewrite main_trace.
  destruct (checkIP P args (start w)) as [o st'] eqn:R; cbn [snd].
  destruct (flag.Parse args) as [pos| |m] eqn:FP.
  - destruct (checkIP_reads P args (start w) R FP) as (evs & T & Sh).
    cbn [start trace app] in T. rewrite T.
    destruct Sh as [->|[(hr & ->)|[(hr & msg0 & -> & ->)|[(hr & zn0 & msg0 & -> & ->)
                   |(hr & zn0 & records & ip & st1 & res & tevs & -> & Tx & T2)]]]].
    + split; [intros k d msg []|intros k zn v msg E; discriminate].
    + split; [intros k d msg [E|[]]|intros k zn v msg E]; discriminate.
    + split; [|intros k zn v msg E; discriminate].
      intros k d msg [E|[E|[]]]; try discriminate.
      injection E as <- <- <-. split; [eauto|]. exact (main_of_error _ _ R).
    + split.
      * intros k d msg [E|[E|[E|[]]]]; discriminate.
      * intros k zn v msg E. cbn in E. injection E as <- <- <- <-.
        split; [reflexivity|]. split; [reflexivity|]. exact (main_of_error _ _ R).
    + split.
      * intros k d msg [E|[E|[E|I]]]; try discriminate.
        exfalso. destruct (changed ip records) eqn:C.
        -- destruct (transaction_run _ _ _ _ _ _ C Tx) as (evs & _ & outs & (T3 & _) & X).
           rewrite T2 in T3. apply app_inv_head in T3; subst evs.
           destruct (TxRun_carries X) as (cr & Hd & Fc).
           destruct tevs as [|e0 tevs]; [destruct I|]. cbn in Hd; inversion Hd; subst e0.
           destruct I as [E|I]; [discriminate|].
           destruct (Fc _ I) as (v & _ & _ & Z0 & _). discriminate.
        -- rewrite (transaction_unchanged _ _ _ _ _ _ C) in Tx. inversion Tx; subst.
           cbn [trace] in T2. rewrite <- (app_nil_r (trace st1)) in T2 at 1.
           apply app_inv_head in T2; subst tevs. destruct I.
      * intros k zn v msg E. cbn in E. discriminate.
  - apply checkIP_inv in R.
    destruct R as [(_ & _ & T & _)|[(pos & err & evs & outs & FP' & _)
                  |(pos & hr & ip & zoneId & records & st1 & res & FP' & _)]];
      [|congruence|congruence].
    cbn in T. rewrite T.
    split; [intros k d msg []|intros k zn v msg E; discriminate].
  - apply checkIP_inv in R.
    destruct R as [(_ & _ & T & _)|[(pos & err & evs & outs & FP' & _)
                  |(pos & hr & ip & zoneId & records & st1 & res & FP' & _)]];
      [|congruence|congruence].
    cbn in T. rewrite T.
    split; [intros k d msg []|intros k zn v msg E; discriminate].
Qed.

(** X19.  When the XML-RPC client cannot be built, the run ends after
    the IP was resolved and printed: the error is written on standard
    error, the status is 1 and the registrar is not contacted. *)
Theorem client_failure_contacts_no_registrar args pos w ip st1 msg :
  flag.Parse args = flag.Args pos ->
  (2 <= List.length pos)%nat ->
  getMyIP P (start w) = (Ok ip, st1) ->
  xmlrpc_NewClient P "https://rpc.gandi.net/xmlrpc/" = Some msg ->
  main P args (start w)
  = (1, {| world := world st1; trace := trace st1;
           stdout := stdout st1 ++ [Println [PStr ip]];
           stderr := stderr st1
                     ++ [Fprintf ("err: %s" ++ LF)%string [PErr (External msg)]] |}).
Proof.
  intros FP L G N. unfold main, checkIP, bind. rewrite FP.
  destruct (Z.ltb_spec (Z.of_nat (List.length pos)) 1); [lia|].
  destruct (Z.ltb_spec (Z.of_nat (List.length pos)) 2); [lia|].
  rewrite G. unfold NewGandiAPI. rewrite N. reflexivity.
Qed.

End ReadFailures.

(** * Runs on the scripted platform, continued *)

Module MoreRuns.

Import Sample.

Example reIP_accepts_surrounded_address :
  regexp.MatchString reIP "inet 192.168.0.1/24" = true.
Proof. reflexivity. Qed.

Example reIP_rejects_three_groups :
  regexp.MatchString reIP "192.168.1" = false.
Proof. reflexivity. Qed.

Lemma changing_records_differ :
  exists r, In r [rec1001; recBad] /\ Type_ r = "A"%string /\ Value r <> "5.6.7.8"%string.
Proof.
  exists rec1001. split; [left; reflexivity|]. split; [reflexivity | discriminate].
Defined.

Lemma clone_event_in_moved_run :
  In (EvVersionNew "apikey" 42 (Reply 7))
     (trace (snd (main (platform moved) argv (start tt)))).
Proof. do 3 right. left. reflexivity. Defined.

Lemma getMyIP_returns_the_decoded_string_witness :
  (http_Get (platform moved) "https://api.ipify.org?format=json" (world (start tt))
   = (Reply {| StatusCode := 200; Body := Reply (ip_body "5.6.7.8") |}, tt) /\
   StatusCode {| StatusCode := 200; Body := Reply (ip_body "5.6.7.8") |} = 200 /\
   Body {| StatusCode := 200; Body := Reply (ip_body "5.6.7.8") |}
   = Reply (ip_body "5.6.7.8") /\
   json_Unmarshal (platform moved) (ip_body "5.6.7.8") = Reply "5.6.7.8"%string) /\
  (contains_dotted_quad "5.6.7.8" ->
   fst (getMyIP (platform moved) (start tt)) = Ok "5.6.7.8"%string) /\
  (~ contains_dotted_quad "5.6.7.8" ->
   fst (getMyIP (platform moved) (start tt))
   = Fail (Errorf ("does not look like an IPv4: {" ++ "5.6.7.8" ++ "}")%string)).
Proof.
  split; [repeat split|].
  exact (getMyIP_returns_the_decoded_string (platform moved) (start tt)
           (rsp := {| StatusCode := 200; Body := Reply (ip_body "5.6.7.8") |})
           (w' := tt) (data := ip_body "5.6.7.8") (ip := "5.6.7.8")
           eq_refl eq_refl eq_refl eq_refl).
Defined.

Lemma DeleteRecord_sends_the_decimal_identifier_witness :
  (- 2 ^ 63 <= 4294967296 < 2 ^ 63) /\
  exists r,
    fst (DeleteRecord (platform moved) api 42 7 (fmt_d 4294967296) (start tt))
    = of_reply r /\
    trace (snd (DeleteRecord (platform moved) api 42 7 (fmt_d 4294967296) (start tt)))
    = trace (start tt) ++ [EvRecordDelete (key api) 42 7 4294967296 r].
Proof.
  assert (- 2 ^ 63 <= 4294967296 < 2 ^ 63) as B by (cbn; lia).
  split; [exact B|].
  exact (DeleteRecord_sends_the_decimal_identifier (platform moved) api 42 7 (start tt) B).
Defined.

Lemma transaction_only_touches_its_clone_witness :
  (exists r, In r [recMX; rec1001] /\ Type_ r = "A"%string /\ Value r <> "5.6.7.8"%string) /\
  exists evs cr,
    trace (snd (checkIP_transaction (platform moved) api 42 "5.6.7.8"
                  [recMX; rec1001] (start tt)))
    = trace (start tt) ++ evs /\
    hd_error evs = Some (EvVersionNew (key api) 42 cr) /\
    forall ev, In ev (tl evs) ->
      exists v, cr = Reply v /\ event_key ev = Some (key api) /\
                event_zone ev = Some 42 /\ event_version ev = Some v.
Proof.
  split; [exact Runs.moved_differs|].
  exact (transaction_only_touches_its_clone (platform moved) api 42
           [recMX; rec1001] (start tt) Runs.moved_differs).
Defined.

Lemma failed_clone_ends_the_transaction_witness :
  (exists r, In r [recMX; rec1001] /\ Type_ r = "A"%string /\ Value r <> "5.6.7.8"%string) /\
  exists evs,
    trace (snd (checkIP_transaction (Variants.clone_fails (platform moved) "quota")
                  api 42 "5.6.7.8" [recMX; rec1001] (start tt)))
    = trace (start tt) ++ evs /\
    forall k' z' msg,
      In (EvVersionNew k' z' (Fault msg)) evs ->
      fst (checkIP_transaction (Variants.clone_fails (platform moved) "quota")
             api 42 "5.6.7.8" [recMX; rec1001] (start tt))
      = Some (External msg) /\
      evs = [EvVersionNew (key api) 42 (Fault msg)].
Proof.
  split; [exact Runs.moved_differs|].
  exact (failed_clone_ends_the_transaction (Variants.clone_fails (platform moved) "quota")
           api 42 [recMX; rec1001] (start tt) Runs.moved_differs).
Defined.

Lemma failed_listing_of_the_clone_rolls_back_witness :
  (exists r, In r [recMX; rec1001] /\ Type_ r = "A"%string /\ Value r <> "5.6.7.8"%string) /\
  exists evs,
    trace (snd (checkIP_transaction (Variants.clone_unlistable (platform moved) "busy")
                  api 42 "5.6.7.8" [recMX; rec1001] (start tt)))
    = trace (start tt) ++ evs /\
    forall k' z' v msg,
      In (EvRecordList k' z' v (Fault msg)) evs ->
      fst (checkIP_transaction (Variants.clone_unlistable (platform moved) "busy")
             api 42 "5.6.7.8" [recMX; rec1001] (start tt))
      = Some (External msg) /\
      exists dr,
        evs = [EvVersionNew (key api) 42 (Reply v);
               EvRecordList (key api) 42 v (Fault msg);
               EvVersionDelete (key api) 42 v dr].
Proof.
  split; [exact Runs.moved_differs|].
  exact (failed_listing_of_the_clone_rolls_back
           (Variants.clone_unlistable (platform moved) "busy")
           api 42 [recMX; rec1001] (start tt) Runs.moved_differs).
Defined.

Lemma unparsable_identifier_rolls_back_witness :
  (exists r, In r [rec1001; recBad] /\ Type_ r = "A"%string /\ Value r <> "5.6.7.8"%string) /\
  exists evs,
    trace (snd (checkIP_transaction (platform (with_records moved [rec1001; recBad]))
                  api 42 "5.6.7.8" [rec1001; recBad] (start tt)))
    = trace (start tt) ++ evs /\
    forall f num kind,
      fst (checkIP_transaction (platform (with_records moved [rec1001; recBad]))
             api 42 "5.6.7.8" [rec1001; recBad] (start tt))
      = Some (NumError f num kind) ->
      exists v dr pre,
        hd_error evs = Some (EvVersionNew (key api) 42 (Reply v)) /\
        evs = pre ++ [EvVersionDelete (key api) 42 v dr] /\
        Forall (fun ev => call_failed ev = false) pre /\
        filter is_activate evs = [].
Proof.
  split; [exact changing_records_differ|].
  exact (unparsable_identifier_rolls_back (platform (with_records moved [rec1001; recBad]))
           api 42 [rec1001; recBad] (start tt) changing_records_differ).
Defined.

Lemma clone_is_activated_or_deleted_never_both_witness :
  (exists r, In r [recMX; rec1001] /\ Type_ r = "A"%string /\ Value r <> "5.6.7.8"%string) /\
  exists evs,
    trace (snd (checkIP_transaction (platform moved) api 42 "5.6.7.8"
                  [recMX; rec1001] (start tt)))
    = trace (start tt) ++ evs /\
    (List.length (filter is_version_delete evs)
     + List.length (filter is_activate evs) <= 1)%nat /\
    forall v, hd_error evs = Some (EvVersionNew (key api) 42 (Reply v)) ->
      exists pre last,
        evs = pre ++ [last] /\
        ((exists dr, last = EvVersionDelete (key api) 42 v dr) \/
         (exists sr, last = EvVersionSet (key api) 42 v sr)) /\
        (List.length (filter is_version_delete evs)
         + List.length (filter is_activate evs) = 1)%nat.
Proof.
  split; [exact Runs.moved_differs|].
  exact (clone_is_activated_or_deleted_never_both (platform moved) api 42
           [recMX; rec1001] (start tt) Runs.moved_differs).
Defined.

Lemma change_reported_iff_activation_succeeded_witness :
  (exists r, In r [recMX; rec1001] /\ Type_ r = "A"%string /\ Value r <> "5.6.7.8"%string) /\
  exists evs,
    trace (snd (checkIP_transaction (platform moved) api 42 "5.6.7.8"
                  [recMX; rec1001] (start tt)))
    = trace (start tt) ++ evs /\
    (fst (checkIP_transaction (platform moved) api 42 "5.6.7.8" [recMX; rec1001] (start tt))
     = Some (Errorf ("ip changed to " ++ "5.6.7.8")%string) <->
     exists k' z' v', In (EvVersionSet k' z' v' (Reply true)) evs) /\
    (fst (checkIP_transaction (platform moved) api 42 "5.6.7.8" [recMX; rec1001] (start tt))
     = Some (Errorf ("ip changed to " ++ "5.6.7.8")%string) ->
     exists v records' pairs,
       evs = EvVersionNew (key api) 42 (Reply v)
               :: EvRecordList (key api) 42 v (Reply records')
               :: List.concat pairs ++ [EvVersionSet (key api) 42 v (Reply true)] /\
       Forall2 (replaced (key api) 42 v "5.6.7.8")
         (filter (differs "5.6.7.8") records') pairs).
Proof.
  split; [exact Runs.moved_differs|].
  exact (change_reported_iff_activation_succeeded (platform moved) api 42
           [recMX; rec1001] (start tt) Runs.moved_differs).
Defined.

Lemma transaction_call_bound_witness :
  (exists r, In r [recMX; rec1001] /\ Type_ r = "A"%string /\ Value r <> "5.6.7.8"%string) /\
  exists evs,
    trace (snd (checkIP_transaction (platform moved) api 42 "5.6.7.8"
                  [recMX; rec1001] (start tt)))
    = trace (start tt) ++ evs /\
    forall k' z' v' records',
      In (EvRecordList k' z' v' (Reply records')) evs ->
      (List.length evs <= 3 + 2 * List.length (filter (differs "5.6.7.8") records'))%nat.
Proof.
  split; [exact Runs.moved_differs|].
  exact (transaction_call_bound (platform moved) api 42
           [recMX; rec1001] (start tt) Runs.moved_differs).
Defined.

Lemma flag_argument_ends_in_usage_witness :
  ("h"%char <> "-"%char \/ ""%string <> ""%string) /\
  fst (main (platform moved) ["-h"%string] (start tt)) = 1 /\
  trace (snd (main (platform moved) ["-h"%string] (start tt))) = [] /\
  stdout (snd (main (platform moved) ["-h"%string] (start tt)))
  = [Println [PStr usage_text]] /\
  (List.length (stderr (snd (main (platform moved) ["-h"%string] (start tt)))) <= 1)%nat /\
  world (snd (main (platform moved) ["-h"%string] (start tt))) = tt.
Proof.
  assert ("h"%char <> "-"%char \/ ""%string <> ""%string) as H
    by (left; discriminate).
  split; [exact H|].
  exact (flag_argument_ends_in_usage (platform moved) [] tt H).
Defined.

Lemma mutation_only_after_validated_reads_witness :
  (In (EvVersionNew "apikey" 42 (Reply 7))
      (trace (snd (main (platform moved) argv (start tt)))) /\
   mutating (EvVersionNew "apikey" 42 (Reply 7)) = true) /\
  exists pos hr ip zoneId records cr evs,
    flag.Parse argv = flag.Args pos /\ (2 <= List.length pos)%nat /\
    trace (snd (main (platform moved) argv (start tt)))
    = EvHttpGet "https://api.ipify.org?format=json" hr
      :: EvDomainInfo (List.nth 0 pos ""%string) (List.nth 1 pos ""%string) (Reply zoneId)
      :: EvRecordList (List.nth 0 pos ""%string) zoneId 0 (Reply records)
      :: EvVersionNew (List.nth 0 pos ""%string) zoneId cr
      :: evs /\
    contains_dotted_quad ip /\
    (exists r, In r records /\ Type_ r = "A"%string /\ Value r <> ip) /\
    hd_error (stdout (snd (main (platform moved) argv (start tt))))
    = Some (Println [PStr ip]).
Proof.
  split; [split; [exact clone_event_in_moved_run | reflexivity]|].
  exact (mutation_only_after_validated_reads (platform moved) argv tt
           (EvVersionNew "apikey" 42 (Reply 7)) clone_event_in_moved_run eq_refl).
Defined.

Lemma calls_carry_the_given_credential_and_zone_witness :
  In (EvVersionNew "apikey" 42 (Reply 7))
     (trace (snd (main (platform moved) argv (start tt)))) /\
  exists pos,
    flag.Parse argv = flag.Args pos /\
    (forall k, event_key (EvVersionNew "apikey" 42 (Reply 7)) = Some k ->
               k = List.nth 0 pos ""%string) /\
    (forall k d r, EvVersionNew "apikey" 42 (Reply 7) = EvDomainInfo k d r ->
                   d = List.nth 1 pos ""%string) /\
    (forall zn, event_zone (EvVersionNew "apikey" 42 (Reply 7)) = Some zn ->
       In (EvDomainInfo (List.nth 0 pos ""%string) (List.nth 1 pos ""%string) (Reply zn))
          (trace (snd (main (platform moved) argv (start tt))))).
Proof.
  split; [exact clone_event_in_moved_run|].
  exact (calls_carry_the_given_credential_and_zone (platform moved) argv tt
           (EvVersionNew "apikey" 42 (Reply 7)) clone_event_in_moved_run).
Defined.

Lemma unresolved_ip_contacts_no_registrar_witness :
  (flag.Parse argv = flag.Args argv /\ (2 <= List.length argv)%nat /\
   fst (getMyIP (Variants.http_answers (platform moved) (Fault "timeout")) (start tt))
   = Fail (External "timeout")) /\
  fst (main (Variants.http_answers (platform moved) (Fault "timeout")) argv (start tt)) = 1 /\
  (exists hr,
      trace (snd (main (Variants.http_answers (platform moved) (Fault "timeout"))
                    argv (start tt)))
      = [EvHttpGet "https://api.ipify.org?format=json" hr]) /\
  stdout (snd (main (Variants.http_answers (platform moved) (Fault "timeout"))
                 argv (start tt))) = [] /\
  stderr (snd (main (Variants.http_answers (platform moved) (Fault "timeout"))
                 argv (start tt)))
  = [Fprintf ("err: %s" ++ LF)%string [PErr (External "timeout")]].
Proof.
  assert ((2 <= List.length argv)%nat) as L by (cbn; lia).
  split; [split; [reflexivity|split; [exact L|reflexivity]]|].
  exact (unresolved_ip_contacts_no_registrar
           (Variants.http_answers (platform moved) (Fault "timeout"))
           argv tt (err := External "timeout") eq_refl L eq_refl).
Defined.

Lemma further_arguments_are_ignored_witness :
  (flag.Parse ["apikey"; "example.org"; "more"]%string
   = flag.Args ["apikey"; "example.org"; "more"]%string /\
   flag.Parse argv = flag.Args ["apikey"; "example.org"]%string) /\
  main (platform moved) ["apikey"; "example.org"; "more"]%string (start tt)
  = main (platform moved) argv (start tt).
Proof.
  split; [split; reflexivity|].
  exact (further_arguments_are_ignored (platform moved)
           ["apikey"; "example.org"; "more"]%string argv (start tt) eq_refl eq_refl).
Defined.

Example unknown_zone_run :
  main (Variants.zone_unknown (platform moved) "unknown domain") argv (start tt)
  = (1, {| world := tt;
           trace := [EvHttpGet "https://api.ipify.org?format=json"
                       (Reply {| StatusCode := 200; Body := Reply (ip_body "5.6.7.8") |});
                     EvDomainInfo "apikey" "example.org" (Fault "unknown domain")];
           stdout := [Println [PStr "5.6.7.8"]];
           stderr := [Fprintf ("err: %s" ++ LF)%string
                        [PErr (External "unknown domain")]] |}).
Proof. vm_compute. reflexivity. Qed.

Example wide_identifier_run :
  trace (snd (DeleteRecord (platform moved) api 42 7 "4294967296" (start tt)))
  = [EvRecordDelete "apikey" 42 7 4294967296 (Reply 1)].
Proof. reflexivity. Qed.

Lemma client_failure_contacts_no_registrar_witness :
  (flag.Parse argv = flag.Args argv /\ (2 <= List.length argv)%nat /\
   getMyIP (Variants.client_fails (platform moved) "no cookie jar") (start tt)
   = (Ok "5.6.7.8"%string,
      {| world := tt;
         trace := [EvHttpGet "https://api.ipify.org?format=json"
                     (Reply {| StatusCode := 200; Body := Reply (ip_body "5.6.7.8") |})];
         stdout := []; stderr := [] |}) /\
   xmlrpc_NewClient (Variants.client_fails (platform moved) "no cookie jar")
     "https://rpc.gandi.net/xmlrpc/" = Some "no cookie jar"%string) /\
  main (Variants.client_fails (platform moved) "no cookie jar") argv (start tt)
  = (1, {| world := tt;
           trace := [EvHttpGet "https://api.ipify.org?format=json"
                       (Reply {| StatusCode := 200; Body := Reply (ip_body "5.6.7.8") |})];
           stdout := [] ++ [Println [PStr "5.6.7.8"]];
           stderr := [] ++ [Fprintf ("err: %s" ++ LF)%string
                              [PErr (External "no cookie jar")]] |}).
Proof.
  assert ((2 <= List.length argv)%nat) as L by (cbn; lia).
  split; [split; [reflexivity|split; [exact L|split; reflexivity]]|].
  exact (client_failure_contacts_no_registrar
           (Variants.client_fails (platform moved) "no cookie jar")
           argv tt eq_refl L eq_refl eq_refl).
Defined.

End MoreRuns.
